(** * Real D.O.R. Brescia PWA: the service worker's caching engine

    A shallow embedding of [service-worker.js] (version 2.1.0) and of the
    legacy worker kept next to it.  The worker's handlers are promise
    chains over the browser's Cache Storage, [fetch] and client APIs; the
    chains are embedded as terms of a small promise type whose leaves are
    the platform calls, and an interpreter gives the platform calls their
    meaning over an explicit world (the origin's cache storage and the
    worker's clients) and a network.  Console logging is left out. *)

From stdpp Require Import gmap strings list fin_maps.
From Stdlib Require Import ZArith.

Local Open Scope string_scope.
Local Open Scope Z_scope.

(** ** Strings: the two [String.prototype] methods the worker calls *)

(** [s.startsWith(p)] *)
Fixpoint startsWith (s p : string) {struct p} : bool :=
  match p with
  | EmptyString => true
  | String a p' =>
      match s with
      | EmptyString => false
      | String b s' => if Ascii.eqb a b then startsWith s' p' else false
      end
  end.

(** [s.includes(p)]: [p] occurs somewhere in [s]. *)
Fixpoint includes (s p : string) : bool :=
  if startsWith s p then true
  else match s with
       | EmptyString => false
       | String _ s' => includes s' p
       end.

(** ** Requests and responses *)

(** The fields of [new URL(request.url)] that the worker reads, next to the
    full locator. *)
Record URL := {
  href : string;
  protocol : string;
  hostname : string;
  pathname : string
}.

Record Request := {
  method : string;
  url : URL
}.

(** The key under which the cache storage files a request. *)
Abbreviation Identity := (string * string)%type.

Definition identity (request : Request) : Identity :=
  (method request, href (url request)).

Inductive ResponseType :=
| basic | cors | default | error | opaque | opaqueredirect.

Record Response := {
  status : Z;
  statusText : string;
  type : ResponseType;
  headers : list (string * string);
  body : string
}.

(** [response.clone()]: a second handle on the same status, headers and
    body. *)
Definition clone (response : Response) : Response := response.

(** [new Response(body, { status, statusText, headers })] *)
Definition new_Response (b : string) (st : Z) (stText : string)
    (hs : list (string * string)) : Response :=
  {| status := st; statusText := stText; type := default;
     headers := hs; body := b |}.

(** [response.ok] *)
Definition ok (response : Response) : bool :=
  (200 <=? status response) && (status response <=? 299).

Definition is_error_type (t : ResponseType) : bool :=
  match t with error => true | _ => false end.

(** *** What a cache accepts

    [cache.put] and [cache.addAll] refuse, with a [TypeError], a request
    that is not a GET request over http or https, a response with status
    206, and a response whose [Vary] header lists [*]. *)

(** The scheme of a serialised locator is http or https. *)
Definition http_scheme (locator : string) : bool :=
  startsWith locator "http:" || startsWith locator "https:".

Definition lower (c : Ascii.ascii) : Ascii.ascii :=
  let n := Ascii.nat_of_ascii c in
  if ((65 <=? n) && (n <=? 90))%nat then Ascii.ascii_of_nat (n + 32)%nat else c.

(** Header names compare without regard to case. *)
Fixpoint toLowerCase (s : string) : string :=
  match s with
  | EmptyString => EmptyString
  | String c s' => String (lower c) (toLowerCase s')
  end.

(** A space or a tab. *)
Definition is_space (c : Ascii.ascii) : bool :=
  Ascii.eqb c (Ascii.ascii_of_nat 32) || Ascii.eqb c (Ascii.ascii_of_nat 9).

Fixpoint trim_left (s : string) : string :=
  match s with
  | EmptyString => EmptyString
  | String c s' => if is_space c then trim_left s' else s
  end.

Fixpoint trim_right (s : string) : string :=
  match s with
  | EmptyString => EmptyString
  | String c s' =>
      match trim_right s' with
      | EmptyString => if is_space c then EmptyString else String c EmptyString
      | t => String c t
      end
  end.

(** The members of a comma-separated header value (the comma is
    character 44). *)
Fixpoint members (s : string) : list string :=
  match s with
  | EmptyString => [EmptyString]
  | String c s' =>
      if Ascii.eqb c (Ascii.ascii_of_nat 44)
      then EmptyString :: members s'
      else match members s' with
           | m :: ms => String c m :: ms
           | [] => [String c EmptyString]
           end
  end.

(** A [Vary] header of the response lists [*]. *)
Definition vary_star (response : Response) : bool :=
  existsb
    (fun h =>
       String.eqb (toLowerCase (fst h)) "vary" &&
       existsb (fun m => String.eqb (trim_right (trim_left m)) "*")
         (members (snd h)))
    (headers response).

(** The cache accepts the write of [response] under the request identity
    (method, locator). *)
Definition cacheable (i : string * string) (response : Response) : bool :=
  String.eqb (fst i) "GET" && http_scheme (snd i) &&
  negb (status response =? 206) && negb (vary_star response).
Arguments cacheable : simpl never.

Inductive Error := NetworkError | TypeError | InvalidStateError.

(** How a promise settles. *)
Inductive Settled (A : Type) :=
| Fulfilled (a : A)
| Rejected (e : Error).
Arguments Fulfilled {A} a.
Arguments Rejected {A} e.

(** ** The cache storage of the origin

    [caches] is an ordered collection of named caches (creation order);
    each cache maps request identities to response snapshots. *)

Abbreviation Cache := (gmap Identity Response).
Abbreviation CacheStorage := (list (string * Cache)).

Fixpoint has_cache (name : string) (s : CacheStorage) : bool :=
  match s with
  | [] => false
  | (n, _) :: s' => if String.eqb n name then true else has_cache name s'
  end.

(** The cache called [name], when there is one. *)
Fixpoint get_cache (name : string) (s : CacheStorage) : option Cache :=
  match s with
  | [] => None
  | (n, c) :: s' => if String.eqb n name then Some c else get_cache name s'
  end.

(** [caches.open(name)] creates the cache when it is absent. *)
Definition storage_open (name : string) (s : CacheStorage) : CacheStorage :=
  if has_cache name s then s else s ++ [(name, ∅)].

(** [caches.keys()] *)
Definition storage_keys (s : CacheStorage) : list string := map fst s.

(** [caches.delete(name)] *)
Fixpoint storage_delete (name : string) (s : CacheStorage) : CacheStorage :=
  match s with
  | [] => []
  | (n, c) :: s' =>
      if String.eqb n name then storage_delete name s'
      else (n, c) :: storage_delete name s'
  end.

(** What an accepted [cache.put(request, response)] does to the cache
    called [name]: the entry of the identity is replaced.  A handle whose
    cache was deleted in the meantime writes nothing that the storage can
    see.  Whether a write is accepted is decided where the call is
    performed, by [cacheable]. *)
Fixpoint storage_put (name : string) (i : Identity) (r : Response)
    (s : CacheStorage) : CacheStorage :=
  match s with
  | [] => []
  | (n, c) :: s' =>
      if String.eqb n name then (n, <[i:=r]> c) :: storage_put name i r s'
      else (n, c) :: storage_put name i r s'
  end.

(** [caches.match(request)]: the caches are searched in creation order
    and the first snapshot found is the answer. *)
Fixpoint storage_match (i : Identity) (s : CacheStorage) : option Response :=
  match s with
  | [] => None
  | (_, c) :: s' =>
      match c !! i with
      | Some r => Some r
      | None => storage_match i s'
      end
  end.

(** The snapshot that the cache called [name] holds for an identity. *)
Definition cache_get (name : string) (i : Identity) (s : CacheStorage)
    : option Response :=
  match get_cache name s with
  | Some c => c !! i
  | None => None
  end.

(** ** The platform calls *)

Abbreviation Client := nat.
Abbreviation Port := nat.

Inductive Target :=
| ToClient (c : Client)
| ToPort (p : Port).

(** A posted message: the fields of the object literal. *)
Abbreviation Message := (list (string * string)).

Inductive Op :=
| CachesOpen (name : string)
| CachesMatch (i : Identity)
| CachesKeys
| CachesDelete (name : string)
| CachePut (cache : string) (i : Identity) (r : Response)
| CacheAddAll (cache : string) (urls : list string)
| Fetch (i : Identity)
| SkipWaiting
| ClientsClaim
| ClientsMatchAll
| PostMessage (to : Target) (m : Message).

(** What the promise of a call fulfils with.  A cache handle is the name
    of its cache. *)
Definition Ret (o : Op) : Type :=
  match o with
  | CachesOpen _ => string
  | CachesMatch _ => option Response
  | CachesKeys => list string
  | CachesDelete _ => bool
  | CachePut _ _ _ => unit
  | CacheAddAll _ _ => unit
  | Fetch _ => Response
  | SkipWaiting => unit
  | ClientsClaim => unit
  | ClientsMatchAll => list Client
  | PostMessage _ _ => unit
  end.

(** ** Promises

    A promise chain is a tree: it is settled, or it waits for a platform
    call and goes on with the fulfilment or the rejection handler, or it
    starts a chain that nobody waits for ([Detach]) and goes on. *)
Inductive Promise (A : Type) : Type :=
| Resolve (a : A)
| Reject (e : Error)
| Await (o : Op) (onFulfilled : Ret o -> Promise A)
    (onRejected : Error -> Promise A)
| Detach (task : Promise unit) (rest : Promise A).
Arguments Resolve {A} a.
Arguments Reject {A} e.
Arguments Await {A} o onFulfilled onRejected.
Arguments Detach {A} task rest.

(** The promise a platform call returns. *)
Definition call (o : Op) : Promise (Ret o) := Await o Resolve Reject.

(** Go on with [k] once [p] has settled, either way. *)
Fixpoint chain {A B : Type} (p : Promise A) (k : Settled A -> Promise B)
    : Promise B :=
  match p with
  | Resolve a => k (Fulfilled a)
  | Reject e => k (Rejected e)
  | Await o f h => Await o (fun x => chain (f x) k) (fun e => chain (h e) k)
  | Detach t p' => Detach t (chain p' k)
  end.

(** [p.then(f)] *)
Definition then_ {A B : Type} (p : Promise A) (f : A -> Promise B)
    : Promise B :=
  chain p (fun r => match r with
                    | Fulfilled a => f a
                    | Rejected e => Reject e
                    end).

(** [p.catch(g)] *)
Definition catch_ {A : Type} (p : Promise A) (g : Error -> Promise A)
    : Promise A :=
  chain p (fun r => match r with
                    | Fulfilled a => Resolve a
                    | Rejected e => g e
                    end).

(** [Promise.all(ps)]: every member runs; the first rejection, if any, is
    the rejection of the whole. *)
Fixpoint Promise_all {A : Type} (ps : list (Promise A)) : Promise (list A) :=
  match ps with
  | [] => Resolve []
  | p :: ps' =>
      chain p (fun r =>
        chain (Promise_all ps') (fun rs =>
          match r, rs with
          | Fulfilled a, Fulfilled l => Resolve (a :: l)
          | Rejected e, _ => Reject e
          | Fulfilled _, Rejected e => Reject e
          end))
  end.

(** ** The world and the interpreter *)

(** [clients] are the window clients that the worker controls, which is
    what [clients.matchAll()] returns; [uncontrolled] are the window
    clients in its scope that it does not control yet. *)
Record World := {
  storage : CacheStorage;
  clients : list Client;
  uncontrolled : list Client
}.

Definition with_storage (f : CacheStorage -> CacheStorage) (w : World)
    : World :=
  {| storage := f (storage w); clients := clients w;
     uncontrolled := uncontrolled w |}.

(** [clients.claim()]: the worker takes control of the clients in its
    scope. *)
Definition claim (w : World) : World :=
  {| storage := storage w; clients := clients w ++ uncontrolled w;
     uncontrolled := [] |}.

(** The network answers a live fetch with a response or fails it; a fetch
    that never settles is not represented.  A live fetch takes time:
    [meanwhile] is what the rest of the system does to the cache storage
    while the worker waits for the answer.  [resolve] gives the locator of
    [new Request(u)] for a locator [u] written in the worker: [u] resolved
    against the worker's own location and serialised. *)
Record Network := {
  respond : Identity -> Settled Response;
  meanwhile : CacheStorage -> CacheStorage;
  resolve : string -> string
}.

(** The fetches of [cache.addAll(urls)]: every locator is turned into a
    GET request and fetched; the batch fails unless every fetch came back
    with an [ok] response that the cache accepts. *)
Fixpoint fetch_all (net : Network) (urls : list string)
    : option (list (Identity * Response)) :=
  match urls with
  | [] => Some []
  | u :: us =>
      match respond net ("GET", resolve net u) with
      | Fulfilled r =>
          if ok r && cacheable ("GET", resolve net u) r then
            match fetch_all net us with
            | Some l => Some ((("GET", resolve net u), r) :: l)
            | None => None
            end
          else None
      | Rejected _ => None
      end
  end.

(** Two requests of one batch have the same locator. *)
Fixpoint duplicated (locators : list string) : bool :=
  match locators with
  | [] => false
  | x :: xs => existsb (String.eqb x) xs || duplicated xs
  end.

Definition put_all (name : string) (l : list (Identity * Response))
    (s : CacheStorage) : CacheStorage :=
  fold_left (fun acc p => storage_put name (fst p) (snd p) acc) l s.

(** What a platform call does to the world and what its promise settles
    with.  A live fetch is rejected when the network fails it, a write
    when the cache does not accept it, a batch when one of its fetches
    fails or is not accepted ([TypeError]) or when two of its requests
    have the same locator ([InvalidStateError]); a rejected write or batch
    writes nothing. *)
Definition perform (net : Network) (o : Op) (w : World)
    : Settled (Ret o) * World :=
  match o as o' return Settled (Ret o') * World with
  | CachesOpen name => (Fulfilled name, with_storage (storage_open name) w)
  | CachesMatch i => (Fulfilled (storage_match i (storage w)), w)
  | CachesKeys => (Fulfilled (storage_keys (storage w)), w)
  | CachesDelete name =>
      (Fulfilled (has_cache name (storage w)),
       with_storage (storage_delete name) w)
  | CachePut name i r =>
      if cacheable i r
      then (Fulfilled tt, with_storage (storage_put name i r) w)
      else (Rejected TypeError, w)
  | CacheAddAll name urls =>
      match fetch_all net urls with
      | Some l =>
          if duplicated (map (fun p => snd (fst p)) l)
          then (Rejected InvalidStateError, w)
          else (Fulfilled tt, with_storage (put_all name l) w)
      | None => (Rejected TypeError, w)
      end
  | Fetch i => (respond net i, with_storage (meanwhile net) w)
  | SkipWaiting => (Fulfilled tt, w)
  | ClientsClaim => (Fulfilled tt, claim w)
  | ClientsMatchAll => (Fulfilled (clients w), w)
  | PostMessage _ _ => (Fulfilled tt, w)
  end.

(** What running a chain gives: how it settled, the world at that moment,
    the world once the detached chains have run too, and the platform
    calls made, in order. *)
Record Outcome (A : Type) := {
  result : Settled A;
  returned : World;
  final : World;
  log : list Op
}.
Arguments result {A} _.
Arguments returned {A} _.
Arguments final {A} _.
Arguments log {A} _.

(** A detached chain runs once the chain that started it has settled. *)
Fixpoint run {A : Type} (net : Network) (p : Promise A) (w : World)
    : Outcome A :=
  match p with
  | Resolve a =>
      {| result := Fulfilled a; returned := w; final := w; log := [] |}
  | Reject e =>
      {| result := Rejected e; returned := w; final := w; log := [] |}
  | Await o f h =>
      let rw := perform net o w in
      let out := match fst rw with
                 | Fulfilled x => run net (f x) (snd rw)
                 | Rejected e => run net (h e) (snd rw)
                 end in
      {| result := result out; returned := returned out;
         final := final out; log := o :: log out |}
  | Detach t k =>
      let out := run net k w in
      let bg := run net t (final out) in
      {| result := result out; returned := returned out;
         final := final bg; log := log out ++ log bg |}
  end.

(** The platform calls under the names the worker uses. *)
Definition caches_open (name : string) : Promise string :=
  call (CachesOpen name).
Definition caches_match (request : Request) : Promise (option Response) :=
  call (CachesMatch (identity request)).
Definition caches_keys : Promise (list string) := call CachesKeys.
Definition caches_delete (name : string) : Promise bool :=
  call (CachesDelete name).
Definition cache_put (cache : string) (request : Request)
    (response : Response) : Promise unit :=
  call (CachePut cache (identity request) response).
Definition cache_addAll (cache : string) (urls : list string)
    : Promise unit :=
  call (CacheAddAll cache urls).
Definition fetch (request : Request) : Promise Response :=
  call (Fetch (identity request)).
Definition skipWaiting : Promise unit := call SkipWaiting.
Definition clients_claim : Promise unit := call ClientsClaim.
Definition clients_matchAll : Promise (list Client) := call ClientsMatchAll.
Definition postMessage (to : Target) (m : Message) : Promise unit :=
  call (PostMessage to m).

(** [xs.forEach(f)] for a callback that makes synchronous platform calls. *)
Fixpoint forEach {A : Type} (xs : list A) (f : A -> Promise unit)
    : Promise unit :=
  match xs with
  | [] => Resolve tt
  | x :: xs' => then_ (f x) (fun _ => forEach xs' f)
  end.

(** ** The worker, version 2.1.0 *)

Definition CACHE_VERSION : string := "real-dor-v2.1.0".
Definition CACHE_NAME : string := CACHE_VERSION.

Definition urlsToCache : list string :=
  [ "/";
    "/index.html";
    "/manifest.json";
    "https://cdn.tailwindcss.com";
    "https://fonts.googleapis.com/css2?family=Nunito:wght@400;600;700;800&display=swap";
    "https://unpkg.com/react@18/umd/react.production.min.js";
    "https://unpkg.com/react-dom@18/umd/react-dom.production.min.js";
    "https://unpkg.com/@babel/standalone/babel.min.js" ].

(** *** install *)

(** The promise handed to [event.waitUntil]. *)
Definition install_handler : Promise unit :=
  catch_
    (then_
       (then_ (caches_open CACHE_NAME)
          (fun cache => cache_addAll cache urlsToCache))
       (fun _ => skipWaiting))
    (fun error => Resolve tt).

(** The platform's verdict on an install step: the worker is installed
    when the promise given to [waitUntil] fulfils, and discarded when it
    rejects. *)
Inductive InstallVerdict := Installed | Redundant.

Definition install_verdict (r : Settled unit) : InstallVerdict :=
  match r with
  | Fulfilled _ => Installed
  | Rejected _ => Redundant
  end.

(** *** activate *)

Definition activate_handler : Promise unit :=
  then_
    (then_ (caches_keys)
       (fun cacheNames =>
          Promise_all
            (map (fun cacheName =>
                    if negb (String.eqb cacheName CACHE_NAME)
                    then then_ (caches_delete cacheName)
                           (fun deleted => Resolve (Some deleted))
                    else Resolve None)
               cacheNames)))
    (fun _ => clients_claim).

(** *** fetch *)

(** [url.protocol.startsWith('http')] *)
Definition isHttp (url : URL) : bool := startsWith (protocol url) "http".

(** The Firebase test of the handler: these hosts are always fetched
    live. *)
Definition isFirebase (url : URL) : bool :=
  includes (hostname url) "firebase" ||
  includes (hostname url) "firestore" ||
  includes (hostname url) "firebasestorage".

Definition isLibrary (url : URL) : bool :=
  includes (hostname url) "cdn" ||
  includes (hostname url) "unpkg" ||
  includes (hostname url) "cloudflare" ||
  includes (hostname url) "jsdelivr" ||
  includes (hostname url) "fonts.googleapis" ||
  includes (hostname url) "fonts.gstatic".

(** The write that follows a live answer: nobody waits for the opening of
    the cache, nor for the [put] inside it. *)
Definition save (request : Request) (responseToCache : Response)
    : Promise unit :=
  then_ (caches_open CACHE_NAME)
    (fun cache =>
       Detach (cache_put cache request responseToCache)
         (Resolve tt)).

(** The two [new Response(...)] literals of the handler: the answer of
    the library branch and the answer of the app branch when neither the
    network nor the storage has the content. *)
Definition library_offline : Response :=
  new_Response "Offline - Libreria non disponibile"
    503 "Service Unavailable" [("Content-Type", "text/plain")].

Definition app_offline : Response :=
  new_Response "Offline - Contenuto non disponibile"
    503 "Service Unavailable" [("Content-Type", "text/plain")].

(** The handler answers [None] when it returns without calling
    [event.respondWith] (the browser then handles the request itself), and
    otherwise the promise it gives to [event.respondWith].  The test
    [!response] of the library branch is left out: [fetch] fulfils with a
    response object, never with a falsy value. *)
Definition fetch_handler (request : Request) : option (Promise Response) :=
  let url := url request in
  if negb (isHttp url) then None
  else if isFirebase url then Some (fetch request)
  else if isLibrary url then
    Some
      (then_ (caches_match request)
         (fun cachedResponse =>
            match cachedResponse with
            | Some cachedResponse => Resolve cachedResponse
            | None =>
                catch_
                  (then_ (fetch request)
                     (fun response =>
                        if negb (status response =? 200)
                           || is_error_type (type response)
                        then Resolve response
                        else
                          let responseToCache := clone response in
                          Detach (save request responseToCache)
                            (Resolve response)))
                  (fun error =>
                     then_ (caches_match request)
                       (fun cached =>
                          match cached with
                          | Some cached => Resolve cached
                          | None =>
                              Resolve library_offline
                          end))
            end))
  else
    Some
      (catch_
         (then_ (fetch request)
            (fun response =>
               let responseToCache := clone response in
               Detach (save request responseToCache) (Resolve response)))
         (fun _ =>
            then_ (caches_match request)
              (fun response =>
                 match response with
                 | Some response => Resolve response
                 | None =>
                     Resolve app_offline
                 end))).

(** *** message *)

Record MessageEvent := {
  data : option Message;
  ports : list Port
}.

(** [obj.key] on an object literal *)
Fixpoint field (key : string) (obj : Message) : option string :=
  match obj with
  | [] => None
  | (k, v) :: obj' => if String.eqb k key then Some v else field key obj'
  end.

(** [event.data && event.data.type === t] *)
Definition data_type_is (event : MessageEvent) (t : string) : bool :=
  match data event with
  | Some d =>
      match field "type" d with
      | Some t' => String.eqb t' t
      | None => false
      end
  | None => false
  end.

(** The work that the CLEAR_CACHE branch hands to [event.waitUntil]. *)
Definition clear_cache : Promise unit :=
  then_
    (then_ (caches_keys)
       (fun names =>
          Promise_all (map (fun name => caches_delete name) names)))
    (fun _ =>
       Detach
         (then_ (clients_matchAll)
            (fun clients =>
               forEach clients
                 (fun client =>
                    postMessage (ToClient client)
                      [("type", "CACHE_CLEARED");
                             ("message", "Cache pulita con successo!")])))
         (Resolve tt)).

(** The three tests of the handler, in the order of the source.  The
    [skipWaiting()] promise is dropped; [event.ports[0].postMessage] throws
    when no port came with the message. *)
Definition message_handler (event : MessageEvent) : Promise unit :=
  then_
    (if data_type_is event "SKIP_WAITING"
     then Detach (skipWaiting) (Resolve tt)
     else Resolve tt)
    (fun _ =>
       then_
         (if data_type_is event "CLEAR_CACHE" then clear_cache
          else Resolve tt)
         (fun _ =>
            if data_type_is event "GET_VERSION" then
              match ports event with
              | port :: _ =>
                  postMessage (ToPort port) [("version", CACHE_VERSION)]
              | [] => Reject TypeError
              end
            else Resolve tt)).

(** ** The legacy worker kept next to it *)

Module Legacy.

Definition CACHE_NAME : string := "real-dor-v2".

Definition urlsToCache : list string :=
  [ "/";
    "/index.html";
    "/manifest.json";
    "https://cdn.tailwindcss.com";
    "https://unpkg.com/react@18/umd/react.production.min.js";
    "https://unpkg.com/react-dom@18/umd/react-dom.production.min.js";
    "https://unpkg.com/@babel/standalone/babel.min.js";
    "https://cdnjs.cloudflare.com/ajax/libs/jspdf/2.5.1/jspdf.umd.min.js";
    "https://cdnjs.cloudflare.com/ajax/libs/jspdf-autotable/3.5.31/jspdf.plugin.autotable.min.js" ].

Definition install_handler : Promise unit :=
  then_ (caches_open CACHE_NAME)
    (fun cache => cache_addAll cache urlsToCache).

Definition activate_handler : Promise (list (option bool)) :=
  then_ (caches_keys)
    (fun cacheNames =>
       Promise_all
         (map (fun cacheName =>
                 if negb (String.eqb cacheName CACHE_NAME)
                 then then_ (caches_delete cacheName)
                        (fun deleted => Resolve (Some deleted))
                 else Resolve None)
            cacheNames)).

Definition fetch_handler (request : Request) : Promise Response :=
  catch_
    (then_ (fetch request)
       (fun response =>
          let responseToCache := clone response in
          Detach
            (then_ (caches_open CACHE_NAME)
               (fun cache =>
                  Detach
                    (cache_put cache request responseToCache)
                    (Resolve tt)))
            (Resolve response)))
    (fun _ =>
       then_ (caches_match request)
         (fun response =>
            match response with
            | Some response => Resolve response
            | None =>
                Resolve
                  (new_Response "Offline - contenuto non disponibile"
                     503 "Service Unavailable"
                     [("Content-Type", "text/plain")])
            end)).

End Legacy.

(** ** Request classes

    The handler tests the locator in a fixed order; the first test that
    holds decides what is done with the request. *)
Inductive RequestClass := Bypass | CacheFirst | NetworkFirst.

Definition classify (url : URL) : RequestClass :=
  if negb (isHttp url) then Bypass
  else if isFirebase url then Bypass
  else if isLibrary url then CacheFirst
  else NetworkFirst.


(** What the worker does with a fetch event in a given world: nothing
    ([None], the event is left to the browser) or the run of the promise
    given to [event.respondWith]. *)
Definition on_fetch (net : Network) (request : Request) (w : World)
    : option (Outcome Response) :=
  match fetch_handler request with
  | Some p => Some (run net p w)
  | None => None
  end.

(** The cache that a call creates, fills or removes, and whether a call
    goes to the cache storage at all. *)
Definition writes_to (o : Op) : option string :=
  match o with
  | CachesOpen name => Some name
  | CachesDelete name => Some name
  | CachePut name _ _ => Some name
  | CacheAddAll name _ => Some name
  | _ => None
  end.

Definition touches_storage (o : Op) : bool :=
  match o with
  | CachesOpen _ | CachesMatch _ | CachesKeys | CachesDelete _
  | CachePut _ _ _ | CacheAddAll _ _ => true
  | _ => false
  end.

(** [caches.delete] of each name in turn. *)
Definition delete_each (names : list string) (s : CacheStorage)
    : CacheStorage :=
  fold_left (fun acc name => storage_delete name acc) names s.

(** The names that the activate handler deletes. *)
Definition stale_names (names : list string) : list string :=
  List.filter (fun name => negb (String.eqb name CACHE_NAME)) names.

(** A chain that detaches nothing. *)
Fixpoint plain {A : Type} (p : Promise A) : Prop :=
  match p with
  | Resolve _ | Reject _ => True
  | Await o f h => (∀ x, plain (f x)) ∧ (∀ e, plain (h e))
  | Detach _ _ => False
  end.

(** One run after another. *)
Definition and_then {A B : Type} (o1 : Outcome A) (o2 : Outcome B)
    : Outcome B :=
  {| result := result o2; returned := returned o2; final := final o2;
     log := log o1 ++ log o2 |}.

(** ** What the further properties speak of *)

(** A call of the request path about the identity [i]: a search or a live
    fetch for [i], the opening of the current generation's cache, or a
    write of [i] to it. *)
Definition request_path_call (i : Identity) (o : Op) : Prop :=
  match o with
  | CachesMatch j => j = i
  | Fetch j => j = i
  | CachesOpen name => name = CACHE_NAME
  | CachePut name j _ => name = CACHE_NAME ∧ j = i
  | _ => False
  end.

Definition is_fetch (o : Op) : bool :=
  match o with Fetch _ => true | _ => false end.

Definition is_put (o : Op) : bool :=
  match o with CachePut _ _ _ => true | _ => false end.

(** The caches created before the first cache called [name]. *)
Fixpoint before (name : string) (s : CacheStorage) : CacheStorage :=
  match s with
  | [] => []
  | (n, c) :: s' =>
      if String.eqb n name then [] else (n, c) :: before name s'
  end.

(** The caches called [name]. *)
Definition only (name : string) (s : CacheStorage) : CacheStorage :=
  List.filter (fun p => String.eqb (fst p) name) s.

(** Every locator of a manifest is answered with an [ok] response that
    the cache accepts. *)
Definition all_answered (net : Network) (urls : list string) : Prop :=
  ∀ u, In u urls →
    ∃ r, respond net ("GET", resolve net u) = Fulfilled r ∧
         ok r = true ∧ cacheable ("GET", resolve net u) r = true.

(** ** Sample requests, answers, networks and worlds *)

Module Sample.

Definition library_request : Request :=
  {| method := "GET";
     url := {| href := "https://unpkg.com/react@18/umd/react.production.min.js";
               protocol := "https:";
               hostname := "unpkg.com";
               pathname := "/react@18/umd/react.production.min.js" |} |}.

Definition app_request : Request :=
  {| method := "GET";
     url := {| href := "https://realdor.example/index.html";
               protocol := "https:";
               hostname := "realdor.example";
               pathname := "/index.html" |} |}.

Definition firebase_request : Request :=
  {| method := "POST";
     url := {| href := "https://firestore.googleapis.com/v1/projects/realdor/documents";
               protocol := "https:";
               hostname := "firestore.googleapis.com";
               pathname := "/v1/projects/realdor/documents" |} |}.

Definition fresh : Response :=
  {| status := 200; statusText := "OK"; type := basic;
     headers := [("Content-Type", "text/javascript")]; body := "fresh" |}.

Definition stale : Response :=
  {| status := 200; statusText := "OK"; type := basic;
     headers := [("Content-Type", "text/javascript")]; body := "stale" |}.

Definition broken : Response :=
  {| status := 500; statusText := "Internal Server Error"; type := basic;
     headers := []; body := "oops" |}.

(** The worker is served from [https://realdor.example]: a locator that
    begins with a slash is a path on that origin, the other locators of
    the samples are absolute already. *)
Definition place (u : string) : string :=
  if startsWith u "/" then String.append "https://realdor.example" u else u.

(** Every fetch is answered with [r]. *)
Definition online (r : Response) : Network :=
  {| respond := fun _ => Fulfilled r; meanwhile := fun s => s;
     resolve := place |}.

(** Every fetch fails. *)
Definition offline : Network :=
  {| respond := fun _ => Rejected NetworkError; meanwhile := fun s => s;
     resolve := place |}.

(** Every fetch is answered with [r], except the one for the locator
    [lost], which fails. *)
Definition online_but (lost : string) (r : Response) : Network :=
  {| respond := fun i => if String.eqb (snd i) (place lost)
                         then Rejected NetworkError else Fulfilled r;
     meanwhile := fun s => s;
     resolve := place |}.

Definition no_caches : World :=
  {| storage := []; clients := [1%nat; 2%nat]; uncontrolled := [3%nat] |}.

(** The current generation's cache holds a snapshot for both sample
    requests. *)
Definition stocked : World :=
  {| storage :=
       [(CACHE_NAME,
         <[identity library_request := stale]>
           (<[identity app_request := stale]> ∅))];
     clients := [1%nat; 2%nat];
     uncontrolled := [] |}.

(** Only the cache of the legacy worker exists. *)
Definition legacy_only : World :=
  {| storage := [(Legacy.CACHE_NAME, <[identity app_request := stale]> ∅)];
     clients := [1%nat];
     uncontrolled := [2%nat] |}.

(** Caches of three generations. *)
Definition three_generations : World :=
  {| storage :=
       [("real-dor-v1", ∅);
        (Legacy.CACHE_NAME, <[identity app_request := stale]> ∅);
        (CACHE_NAME, <[identity app_request := fresh]> ∅)];
     clients := [1%nat; 2%nat];
     uncontrolled := [] |}.

Definition clear_cache_event : MessageEvent :=
  {| data := Some [("type", "CLEAR_CACHE")]; ports := [] |}.

Definition get_version_event : MessageEvent :=
  {| data := Some [("type", "GET_VERSION")]; ports := [7%nat] |}.

Definition get_version_event_without_port : MessageEvent :=
  {| data := Some [("type", "GET_VERSION")]; ports := [] |}.

Definition skip_waiting_event : MessageEvent :=
  {| data := Some [("type", "SKIP_WAITING")]; ports := [] |}.

Definition unknown_event : MessageEvent :=
  {| data := Some [("type", "PING")]; ports := [7%nat] |}.

Definition missing : Response :=
  {| status := 404; statusText := "Not Found"; type := basic;
     headers := []; body := "missing" |}.

(** Every fetch fails, and while the worker waits for it something else
    stores a snapshot of the library request in the current generation's
    cache. *)
Definition offline_while_stored : Network :=
  {| respond := fun _ => Rejected NetworkError;
     meanwhile := fun s =>
       storage_put CACHE_NAME (identity library_request) stale
         (storage_open CACHE_NAME s);
     resolve := place |}.

(** A cache that a page created before the current generation's cache
    holds its own snapshot of the app request. *)
Definition shadowed : World :=
  {| storage :=
       [("page-cache", <[identity app_request := stale]> ∅);
        (CACHE_NAME, ∅)];
     clients := [1%nat];
     uncontrolled := [] |}.

(** Requests and answers that a cache does not accept. *)
Definition app_post : Request :=
  {| method := "POST";
     url := {| href := "https://realdor.example/index.html";
               protocol := "https:";
               hostname := "realdor.example";
               pathname := "/index.html" |} |}.

Definition library_post : Request :=
  {| method := "POST";
     url := {| href := "https://unpkg.com/react@18/umd/react.production.min.js";
               protocol := "https:";
               hostname := "unpkg.com";
               pathname := "/react@18/umd/react.production.min.js" |} |}.

Definition partial : Response :=
  {| status := 206; statusText := "Partial Content"; type := basic;
     headers := [("Content-Range", "bytes 0-9/100")]; body := "0123456789" |}.

Definition varying : Response :=
  {| status := 200; statusText := "OK"; type := basic;
     headers := [("Vary", "Accept-Encoding, *")]; body := "fresh" |}.

End Sample.

(** * Properties *)

(** ** The string methods *)

Section StringFacts.

Lemma append_nil (s : string) : String.append "" s = s.
Proof. reflexivity. Qed.

Lemma append_cons (a : Ascii.ascii) (s t : string) :
  String.append (String a s) t = String a (String.append s t).
Proof. reflexivity. Qed.

Lemma startsWith_spec (s p : string) :
  startsWith s p = true ↔ ∃ rest, s = String.append p rest.
Proof.
  revert s. induction p as [|a p IH]; intros s; simpl.
  - split; [intros _; exists s; reflexivity | reflexivity].
  - destruct s as [|b s].
    + split; [discriminate | intros [rest H]; discriminate H].
    + destruct (Ascii.eqb_spec a b) as [->|Hne].
      * rewrite IH. split; intros [rest H]; exists rest;
          rewrite append_cons in *; congruence.
      * split; [discriminate |].
        intros [rest H]. rewrite append_cons in H. congruence.
Qed.

(** [includes] finds exactly the occurrences: [p] lies between some
    beginning and some end of [s]. *)
Lemma includes_spec (s p : string) :
  includes s p = true ↔
  ∃ before after, s = String.append before (String.append p after).
Proof.
  induction s as [|c s IH]; simpl.
  - destruct (startsWith "" p) eqn:E.
    + apply startsWith_spec in E as [rest E].
      split; [intros _; exists "", rest; exact E | reflexivity].
    + split; [discriminate |]. intros (before & after & H).
      destruct before; [| discriminate H]. rewrite append_nil in H.
      assert (startsWith "" p = true)
        by (apply startsWith_spec; eauto).
      congruence.
  - destruct (startsWith (String c s) p) eqn:E.
    + apply startsWith_spec in E as [rest E].
      split; [intros _; exists "", rest; exact E | reflexivity].
    + rewrite IH. split.
      * intros (before & after & ->). exists (String c before), after.
        reflexivity.
      * intros (before & after & H). destruct before as [|b before].
        -- rewrite append_nil in H.
           assert (startsWith (String c s) p = true)
             by (apply startsWith_spec; eauto).
           congruence.
        -- rewrite append_cons in H. injection H as _ ->. eauto.
Qed.

End StringFacts.

(** What the cache accepts, condition by condition. *)
Lemma cacheable_spec (i : Identity) (response : Response) :
  cacheable i response = true ↔
  fst i = "GET" ∧ http_scheme (snd i) = true ∧
  status response ≠ 206 ∧ vary_star response = false.
Proof.
  unfold cacheable. rewrite !andb_true_iff, !negb_true_iff.
  rewrite String.eqb_eq, Z.eqb_neq. tauto.
Qed.

(** ** The cache storage *)

Section StorageFacts.

Implicit Types (s : CacheStorage) (name n : string) (i : Identity)
  (r : Response).

Lemma has_cache_keys name s :
  has_cache name s = true ↔ In name (storage_keys s).
Proof.
  induction s as [|[n c] s IH]; simpl.
  - split; [discriminate | tauto].
  - destruct (String.eqb_spec n name) as [->|Hne].
    + split; auto.
    + rewrite IH. split; [auto | intros [?|?]; [congruence | trivial]].
Qed.

Lemma has_cache_get name s :
  has_cache name s = true ↔ is_Some (get_cache name s).
Proof.
  induction s as [|[n c] s IH]; simpl.
  - split; [discriminate | intros [? ?]; discriminate].
  - destruct (String.eqb n name); [split; eauto | exact IH].
Qed.

Lemma get_cache_app_l name s s' :
  has_cache name s = true → get_cache name (s ++ s') = get_cache name s.
Proof.
  induction s as [|[n c] s IH]; simpl; [discriminate |].
  destruct (String.eqb n name); auto.
Qed.

Lemma get_cache_app_r name s s' :
  has_cache name s = false → get_cache name (s ++ s') = get_cache name s'.
Proof.
  induction s as [|[n c] s IH]; simpl; [reflexivity |].
  destruct (String.eqb n name); [discriminate | auto].
Qed.

Lemma has_cache_open name s : has_cache name (storage_open name s) = true.
Proof.
  unfold storage_open. destruct (has_cache name s) eqn:E; [exact E |].
  apply has_cache_get. rewrite get_cache_app_r by exact E.
  simpl. rewrite String.eqb_refl. eauto.
Qed.

Lemma get_cache_open_ne n name s :
  n ≠ name → get_cache n (storage_open name s) = get_cache n s.
Proof.
  intros Hne. unfold storage_open.
  destruct (has_cache name s); [reflexivity |].
  destruct (has_cache n s) eqn:E.
  - apply get_cache_app_l, E.
  - rewrite get_cache_app_r by exact E. simpl.
    destruct (String.eqb_spec name n); [congruence |].
    symmetry. destruct (get_cache n s) eqn:G; [| reflexivity].
    assert (has_cache n s = true) by (apply has_cache_get; eauto).
    congruence.
Qed.

Lemma get_cache_put_ne n name i r s :
  n ≠ name → get_cache n (storage_put name i r s) = get_cache n s.
Proof.
  intros Hne. induction s as [|[m c] s IH]; simpl; [reflexivity |].
  destruct (String.eqb_spec m name) as [->|Hm]; simpl.
  - destruct (String.eqb_spec name n); [congruence | exact IH].
  - destruct (String.eqb m n); [reflexivity | exact IH].
Qed.

Lemma cache_get_put name i r s :
  has_cache name s = true → cache_get name i (storage_put name i r s) = Some r.
Proof.
  unfold cache_get.
  induction s as [|[n c] s IH]; simpl; [discriminate |].
  destruct (String.eqb_spec n name) as [->|Hne]; simpl.
  - intros _. rewrite String.eqb_refl. apply lookup_insert_eq.
  - intros H. destruct (String.eqb_spec n name); [congruence | auto].
Qed.

(** Writing to a freshly opened cache makes the snapshot readable there,
    whatever the cache held before. *)
Lemma cache_get_put_open name i r s :
  cache_get name i (storage_put name i r (storage_open name s)) = Some r.
Proof. apply cache_get_put, has_cache_open. Qed.

(** When no cache has the identity, the snapshot written to [name] is what
    a search of the whole storage finds. *)
Lemma storage_match_put name i r s :
  storage_match i s = None → has_cache name s = true →
  storage_match i (storage_put name i r s) = Some r.
Proof.
  induction s as [|[n c] s IH]; simpl; [discriminate |].
  destruct (c !! i) eqn:Ec; [discriminate |]. intros Hs.
  destruct (String.eqb_spec n name) as [->|Hne]; simpl.
  - intros _. rewrite lookup_insert_eq. reflexivity.
  - intros H. rewrite Ec. auto.
Qed.

Lemma storage_match_app i s s' :
  storage_match i s = None → storage_match i (s ++ s') = storage_match i s'.
Proof.
  induction s as [|[n c] s IH]; simpl; [reflexivity |].
  destruct (c !! i); [discriminate | exact IH].
Qed.

Lemma storage_match_open name i s :
  storage_match i (storage_open name s) = storage_match i s.
Proof.
  unfold storage_open. destruct (has_cache name s); [reflexivity |].
  destruct (storage_match i s) eqn:E.
  - revert E. induction s as [|[n c] s IH]; simpl; [discriminate |].
    destruct (c !! i); auto.
  - rewrite storage_match_app by exact E. simpl.
    rewrite lookup_empty. reflexivity.
Qed.

Lemma storage_match_put_open name i r s :
  storage_match i s = None →
  storage_match i (storage_put name i r (storage_open name s)) = Some r.
Proof.
  intros H. apply storage_match_put.
  - rewrite storage_match_open. exact H.
  - apply has_cache_open.
Qed.

(** A storage with the one cache [name]: searching it is reading that
    cache. *)
Lemma storage_match_single name (c : Cache) i :
  storage_match i [(name, c)] = cache_get name i [(name, c)].
Proof.
  unfold cache_get. simpl. rewrite String.eqb_refl.
  destruct (c !! i); reflexivity.
Qed.

Lemma keys_delete n name s :
  In n (storage_keys (storage_delete name s)) ↔
  In n (storage_keys s) ∧ n ≠ name.
Proof.
  induction s as [|[m c] s IH]; simpl; [tauto |].
  destruct (String.eqb_spec m name) as [->|Hne]; simpl; rewrite IH.
  - split; [tauto | intros [[?|?] ?]; [congruence | tauto]].
  - split; [intros [->|[? ?]]; auto | tauto].
Qed.

Lemma get_cache_delete_ne n name s :
  n ≠ name → get_cache n (storage_delete name s) = get_cache n s.
Proof.
  intros Hne. induction s as [|[m c] s IH]; simpl; [reflexivity |].
  destruct (String.eqb_spec m name) as [->|Hm]; simpl.
  - destruct (String.eqb_spec name n); [congruence | exact IH].
  - destruct (String.eqb m n); [reflexivity | exact IH].
Qed.

Lemma keys_delete_each n names s :
  In n (storage_keys (delete_each names s)) ↔
  In n (storage_keys s) ∧ ¬ In n names.
Proof.
  revert s. induction names as [|m names IH]; intros s; simpl.
  - tauto.
  - rewrite IH, keys_delete. split.
    + intros [[? ?] ?]. split; [assumption |]. intros [?|?]; auto.
    + intros [? Hn]. repeat split; auto.
Qed.

Lemma get_cache_delete_each n names s :
  ¬ In n names → get_cache n (delete_each names s) = get_cache n s.
Proof.
  revert s. induction names as [|m names IH]; intros s Hn; simpl.
  - reflexivity.
  - rewrite IH by (intros ?; apply Hn; right; assumption).
    apply get_cache_delete_ne. intros ->. apply Hn. left. reflexivity.
Qed.

Lemma keys_nil s : (∀ n, ¬ In n (storage_keys s)) → s = [].
Proof.
  destruct s as [|[n c] s]; [reflexivity |].
  intros H. exfalso. apply (H n). left. reflexivity.
Qed.

(** Deleting every listed name empties the storage. *)
Lemma delete_each_keys s : delete_each (storage_keys s) s = [].
Proof.
  apply keys_nil. intros n. rewrite keys_delete_each. tauto.
Qed.

End StorageFacts.

(** ** The interpreter *)

Section RunFacts.

Variable net : Network.

Lemma run_chain_plain {A B : Type} (p : Promise A)
    (k : Settled A -> Promise B) (w : World) :
  plain p →
  run net (chain p k) w =
  and_then (run net p w)
    (run net (k (result (run net p w))) (final (run net p w))).
Proof.
  revert B k w.
  induction p as [A a|A e|A o f IHf h IHh|A t IHt p IHp]; intros B k w Hp.
  - simpl. unfold and_then. simpl. destruct (run net (k (Fulfilled a)) w);
      reflexivity.
  - simpl. unfold and_then. simpl. destruct (run net (k (Rejected e)) w);
      reflexivity.
  - destruct Hp as [Hf Hh]. simpl.
    destruct (fst (perform net o w)) as [x|e].
    + rewrite IHf by apply Hf. reflexivity.
    + rewrite IHh by apply Hh. reflexivity.
  - destruct Hp.
Qed.

(** A chain that detaches nothing has no write left when it settles. *)
Lemma plain_returned {A : Type} (p : Promise A) (w : World) :
  plain p → returned (run net p w) = final (run net p w).
Proof.
  revert w.
  induction p as [A a|A e|A o f IHf h IHh|A t IHt p IHp]; intros w Hp.
  - reflexivity.
  - reflexivity.
  - destruct Hp as [Hf Hh]. simpl.
    destruct (fst (perform net o w)); [apply IHf, Hf | apply IHh, Hh].
  - destruct Hp.
Qed.

End RunFacts.

Section SweepFacts.

Variable net : Network.

Lemma plain_chain {A B : Type} (p : Promise A) (k : Settled A -> Promise B) :
  plain p → (∀ r, plain (k r)) → plain (chain p k).
Proof.
  intros Hp Hk.
  induction p as [A a|A e|A o f IHf h IHh|A t IHt p IHp].
  - apply Hk.
  - apply Hk.
  - destruct Hp as [Hf Hh]. simpl. split; intros; auto.
  - destruct Hp.
Qed.

Lemma plain_Promise_all {A : Type} (ps : list (Promise A)) :
  (∀ p, In p ps → plain p) → plain (Promise_all ps).
Proof.
  induction ps as [|p ps IH]; intros H; simpl; [exact I |].
  apply plain_chain; [apply H; left; reflexivity |].
  intros r. apply plain_chain; [apply IH; intros; apply H; right; assumption |].
  intros rs. destruct r, rs; exact I.
Qed.

(** [Promise.all] over calls that each fulfil and each change the storage
    in their own way: the whole fulfils, the changes are made in the order
    of the list, and the calls are logged in that order. *)
Lemma run_Promise_all_map {X : Type} (f : string → Promise X)
    (g : string → CacheStorage → CacheStorage) (l : string → list Op)
    (names : list string) (w : World) :
  (∀ n, plain (f n)) →
  (∀ n w', ∃ x,
      run net (f n) w' =
      {| result := Fulfilled x; returned := with_storage (g n) w';
         final := with_storage (g n) w'; log := l n |}) →
  ∃ xs,
    run net (Promise_all (map f names)) w =
    {| result := Fulfilled xs;
       returned := with_storage (fold_left (fun acc n => g n acc) names) w;
       final := with_storage (fold_left (fun acc n => g n acc) names) w;
       log := concat (map l names) |}.
Proof.
  intros Hplain Hrun. revert w.
  induction names as [|n names IH]; intros w; simpl.
  - exists []. destruct w; reflexivity.
  - destruct (Hrun n w) as [x Hx].
    destruct (IH (with_storage (g n) w)) as [xs Hxs].
    exists (x :: xs).
    rewrite run_chain_plain by apply Hplain. rewrite Hx. simpl.
    rewrite run_chain_plain.
    + rewrite Hxs. unfold and_then, with_storage. simpl.
      rewrite app_nil_r. reflexivity.
    + apply plain_Promise_all. intros p Hp.
      apply in_map_iff in Hp as [m [<- _]]. apply Hplain.
Qed.

End SweepFacts.

(** ** The request path *)

Section FetchFacts.

Variable net : Network.
Implicit Types (w : World) (request : Request) (response : Response).

Lemma classify_CacheFirst (u : URL) :
  classify u = CacheFirst ↔
  isHttp u = true ∧ isFirebase u = false ∧ isLibrary u = true.
Proof.
  unfold classify.
  destruct (isHttp u), (isFirebase u), (isLibrary u); simpl;
    split; try discriminate; try tauto;
    intros (? & ? & ?); discriminate.
Qed.

Lemma classify_NetworkFirst (u : URL) :
  classify u = NetworkFirst ↔
  isHttp u = true ∧ isFirebase u = false ∧ isLibrary u = false.
Proof.
  unfold classify.
  destruct (isHttp u), (isFirebase u), (isLibrary u); simpl;
    split; try discriminate; try tauto;
    intros (? & ? & ?); discriminate.
Qed.

Lemma classify_Bypass (u : URL) :
  classify u = Bypass ↔ isHttp u = false ∨ isFirebase u = true.
Proof.
  unfold classify.
  destruct (isHttp u), (isFirebase u), (isLibrary u); simpl;
    split; try discriminate; try tauto;
    intros [?|?]; discriminate.
Qed.

(** The handler does with a request what its class says. *)
Lemma fetch_handler_Bypass request :
  classify (url request) = Bypass →
  fetch_handler request =
  if isHttp (url request) then Some (fetch request) else None.
Proof.
  intros H. apply classify_Bypass in H. unfold fetch_handler.
  destruct (isHttp (url request)); simpl; [| reflexivity].
  destruct H as [H|H]; [discriminate H | rewrite H; reflexivity].
Qed.

Lemma fetch_handler_intercepts request :
  fetch_handler request = None ↔ isHttp (url request) = false.
Proof.
  unfold fetch_handler.
  destruct (isHttp (url request)), (isFirebase (url request)),
    (isLibrary (url request)); simpl; split; congruence.
Qed.

(** The second search of the library branch can succeed where the first
    failed: what was stored during the failed fetch is the answer. *)
Lemma cache_first_recheck_hit request w (e : Error) (snapshot : Response) :
  classify (url request) = CacheFirst →
  storage_match (identity request) (storage w) = None →
  respond net (identity request) = Rejected e →
  storage_match (identity request) (meanwhile net (storage w))
    = Some snapshot →
  ∃ out, on_fetch net request w = Some out ∧
    result out = Fulfilled snapshot.
Proof.
  intros Hc Hm Hr Hm'. apply classify_CacheFirst in Hc as (Hh & Hf & Hl).
  unfold on_fetch, fetch_handler. rewrite Hh, Hf, Hl. simpl.
  eexists. split; [reflexivity |]. rewrite Hm. simpl. rewrite Hr. simpl.
  rewrite Hm'. reflexivity.
Qed.

Lemma classify_samples :
  classify (url Sample.library_request) = CacheFirst ∧
  classify (url Sample.app_request) = NetworkFirst ∧
  classify (url Sample.firebase_request) = Bypass.
Proof. repeat split. Qed.

(** The Firebase test comes first: a storage host of Firebase is fetched
    live although its name also contains a library pattern. *)
Lemma classify_firebasestorage :
  classify {| href := "https://firebasestorage.googleapis.com/v0/b/logo.png";
              protocol := "https:";
              hostname := "cdn.firebasestorage.googleapis.com";
              pathname := "/v0/b/logo.png" |} = Bypass.
Proof. reflexivity. Qed.

End FetchFacts.

(** Claim C2.  A request whose hostname matches the always-live (Firebase)
    list is answered with the live fetch and nothing else: when the handler
    takes the request, the promise it gives to [respondWith] settles as
    the live fetch does, success or failure, and the live fetch is the
    only platform call made; a request that is not over http is not taken
    at all.  No call of the run goes to the cache storage. *)
Theorem firebase_request_never_touches_storage
    (net : Network) (w : World) (request : Request) :
  isFirebase (url request) = true →
  (isHttp (url request) = false → on_fetch net request w = None) ∧
  (isHttp (url request) = true →
   ∃ out, on_fetch net request w = Some out ∧
     result out = respond net (identity request) ∧
     log out = [Fetch (identity request)] ∧
     Forall (fun o => touches_storage o = false) (log out) ∧
     storage (final out) = meanwhile net (storage w)).
Proof.
  intros Hf. unfold on_fetch, fetch_handler. split; intros Hh;
    rewrite Hh; simpl; [reflexivity |].
  rewrite Hf. eexists. split; [reflexivity |]. simpl.
  destruct (respond net (identity request)); simpl;
    repeat split; repeat constructor.
Qed.

Lemma firebase_request_never_touches_storage_witness :
  (isHttp (url Sample.firebase_request) = false →
   on_fetch Sample.offline Sample.firebase_request Sample.stocked = None) ∧
  (isHttp (url Sample.firebase_request) = true →
   ∃ out,
     on_fetch Sample.offline Sample.firebase_request Sample.stocked
       = Some out ∧
     result out = respond Sample.offline (identity Sample.firebase_request) ∧
     log out = [Fetch (identity Sample.firebase_request)] ∧
     Forall (fun o => touches_storage o = false) (log out) ∧
     storage (final out) =
       meanwhile Sample.offline (storage Sample.stocked)).
Proof.
  apply (firebase_request_never_touches_storage
           Sample.offline Sample.stocked Sample.firebase_request).
  reflexivity.
Defined.

(** Claim C3, as the code has it.  A NetworkFirst request whose live fetch
    resolves, with whatever status, is answered with the live response,
    and the handler, which never looks at the status, opens the current
    generation's cache and puts a snapshot of the response under the
    request's identity.  When the cache accepts the write (a GET request
    over http or https, a response that is not a 206 and whose [Vary]
    header does not list [*]) the snapshot replaces whatever the cache
    held for the identity; when it does not, the rejection of the write is
    dropped, the cache is opened and nothing is stored. *)
Theorem network_first_returns_and_stores_live
    (net : Network) (w : World) (request : Request) (response : Response) :
  classify (url request) = NetworkFirst →
  respond net (identity request) = Fulfilled response →
  ∃ out, on_fetch net request w = Some out ∧
    result out = Fulfilled response ∧
    log out = [Fetch (identity request); CachesOpen CACHE_NAME;
               CachePut CACHE_NAME (identity request) (clone response)] ∧
    (if cacheable (identity request) (clone response)
     then
       cache_get CACHE_NAME (identity request) (storage (final out))
         = Some (clone response) ∧
       storage (final out) =
         storage_put CACHE_NAME (identity request) (clone response)
           (storage_open CACHE_NAME (meanwhile net (storage w)))
     else
       storage (final out)
         = storage_open CACHE_NAME (meanwhile net (storage w))).
Proof.
  intros Hc Hr. apply classify_NetworkFirst in Hc as (Hh & Hf & Hl).
  unfold on_fetch, fetch_handler. rewrite Hh, Hf, Hl. simpl.
  eexists. split; [reflexivity |]. rewrite Hr. simpl.
  destruct (cacheable (identity request) (clone response)); simpl;
    repeat split. apply cache_get_put_open.
Qed.

Lemma network_first_returns_and_stores_live_witness :
  ∃ out,
    on_fetch (Sample.online Sample.broken) Sample.app_request Sample.stocked
      = Some out ∧
    result out = Fulfilled Sample.broken ∧
    log out = [Fetch (identity Sample.app_request); CachesOpen CACHE_NAME;
               CachePut CACHE_NAME (identity Sample.app_request)
                 (clone Sample.broken)] ∧
    (if cacheable (identity Sample.app_request) (clone Sample.broken)
     then
       cache_get CACHE_NAME (identity Sample.app_request)
         (storage (final out)) = Some (clone Sample.broken) ∧
       storage (final out) =
         storage_put CACHE_NAME (identity Sample.app_request)
           (clone Sample.broken)
           (storage_open CACHE_NAME
              (meanwhile (Sample.online Sample.broken)
                 (storage Sample.stocked)))
     else
       storage (final out)
         = storage_open CACHE_NAME
             (meanwhile (Sample.online Sample.broken)
                (storage Sample.stocked))).
Proof.
  apply (network_first_returns_and_stores_live
           (Sample.online Sample.broken) Sample.stocked Sample.app_request
           Sample.broken); reflexivity.
Defined.

(** Claim C3, as stated, fails where the cache refuses the write.  A POST
    request of the app is answered with the live response and nothing is
    stored for it; a GET request answered with status 206 is answered
    with that response and the cache keeps the snapshot it held. *)
Lemma network_first_refused_write_is_not_stored :
  (classify (url Sample.app_post) = NetworkFirst ∧
   respond (Sample.online Sample.fresh) (identity Sample.app_post)
     = Fulfilled Sample.fresh ∧
   ∃ out,
     on_fetch (Sample.online Sample.fresh) Sample.app_post Sample.stocked
       = Some out ∧
     result out = Fulfilled Sample.fresh ∧
     cache_get CACHE_NAME (identity Sample.app_post) (storage (final out))
       = None) ∧
  (classify (url Sample.app_request) = NetworkFirst ∧
   respond (Sample.online Sample.partial) (identity Sample.app_request)
     = Fulfilled Sample.partial ∧
   ∃ out,
     on_fetch (Sample.online Sample.partial) Sample.app_request
       Sample.stocked = Some out ∧
     result out = Fulfilled Sample.partial ∧
     cache_get CACHE_NAME (identity Sample.app_request)
       (storage (final out)) = Some Sample.stale ∧
     cache_get CACHE_NAME (identity Sample.app_request)
       (storage (final out)) ≠ Some (clone Sample.partial)).
Proof.
  split.
  - split; [reflexivity |]. split; [reflexivity |].
    eexists. split; [reflexivity |]. split; reflexivity.
  - split; [reflexivity |]. split; [reflexivity |].
    eexists. split; [reflexivity |]. split; [reflexivity |].
    split; [reflexivity | discriminate].
Qed.

(** Claim C4.  A CacheFirst request whose identity the storage holds is
    answered with the stored snapshot; the search of the storage is the
    only platform call, so no live fetch is attempted, and the world is
    left as it was. *)
Theorem cache_first_hit_needs_no_fetch
    (net : Network) (w : World) (request : Request) (snapshot : Response) :
  classify (url request) = CacheFirst →
  storage_match (identity request) (storage w) = Some snapshot →
  ∃ out, on_fetch net request w = Some out ∧
    result out = Fulfilled snapshot ∧
    log out = [CachesMatch (identity request)] ∧
    ¬ In (Fetch (identity request)) (log out) ∧
    final out = w.
Proof.
  intros Hc Hm. apply classify_CacheFirst in Hc as (Hh & Hf & Hl).
  unfold on_fetch, fetch_handler. rewrite Hh, Hf, Hl. simpl.
  eexists. split; [reflexivity |]. rewrite Hm. simpl.
  repeat split. intros [H|[]]. discriminate H.
Qed.

Lemma cache_first_hit_needs_no_fetch_witness :
  ∃ out,
    on_fetch (Sample.online Sample.fresh) Sample.library_request
      Sample.stocked = Some out ∧
    result out = Fulfilled Sample.stale ∧
    log out = [CachesMatch (identity Sample.library_request)] ∧
    ¬ In (Fetch (identity Sample.library_request)) (log out) ∧
    final out = Sample.stocked.
Proof.
  apply (cache_first_hit_needs_no_fetch
           (Sample.online Sample.fresh) Sample.stocked
           Sample.library_request Sample.stale); reflexivity.
Defined.

(** Claim C5, as the code has it.  A CacheFirst request whose identity the
    storage does not hold and whose live fetch returns status 200 (and is
    not an error response) is answered with the live response.  The write
    is attempted after the answer.  When the cache accepts it (a GET
    request over http or https, a response whose [Vary] header does not
    list [*]), the current generation's cache then holds a snapshot of
    that response for the identity, and a search of the storage finds it,
    provided the identity was still absent when the answer was returned.
    When the cache refuses it, the rejection is dropped and nothing is
    stored: a later search finds what it found before. *)
Theorem cache_first_miss_returns_and_stores_live
    (net : Network) (w : World) (request : Request) (response : Response) :
  classify (url request) = CacheFirst →
  storage_match (identity request) (storage w) = None →
  respond net (identity request) = Fulfilled response →
  status response = 200 →
  type response ≠ error →
  ∃ out, on_fetch net request w = Some out ∧
    result out = Fulfilled response ∧
    storage (returned out) = meanwhile net (storage w) ∧
    log out = [CachesMatch (identity request); Fetch (identity request);
               CachesOpen CACHE_NAME;
               CachePut CACHE_NAME (identity request) (clone response)] ∧
    (if cacheable (identity request) (clone response)
     then
       cache_get CACHE_NAME (identity request) (storage (final out))
         = Some (clone response) ∧
       (storage_match (identity request) (storage (returned out)) = None →
        storage_match (identity request) (storage (final out))
          = Some (clone response))
     else
       storage (final out)
         = storage_open CACHE_NAME (meanwhile net (storage w)) ∧
       storage_match (identity request) (storage (final out))
         = storage_match (identity request) (storage (returned out))).
Proof.
  intros Hc Hm Hr Hs Ht. apply classify_CacheFirst in Hc as (Hh & Hf & Hl).
  unfold on_fetch, fetch_handler. rewrite Hh, Hf, Hl. simpl.
  eexists. split; [reflexivity |]. rewrite Hm. simpl. rewrite Hr. simpl.
  assert (He : is_error_type (type response) = false)
    by (destruct (type response); try reflexivity; congruence).
  rewrite Hs, He. simpl.
  destruct (cacheable (identity request) (clone response)); simpl;
    repeat split.
  - apply cache_get_put_open.
  - apply storage_match_put_open.
  - apply storage_match_open.
Qed.

Lemma cache_first_miss_returns_and_stores_live_witness :
  ∃ out,
    on_fetch (Sample.online Sample.fresh) Sample.library_request
      Sample.no_caches = Some out ∧
    result out = Fulfilled Sample.fresh ∧
    storage (returned out) =
      meanwhile (Sample.online Sample.fresh) (storage Sample.no_caches) ∧
    log out = [CachesMatch (identity Sample.library_request);
               Fetch (identity Sample.library_request);
               CachesOpen CACHE_NAME;
               CachePut CACHE_NAME (identity Sample.library_request)
                 (clone Sample.fresh)] ∧
    (if cacheable (identity Sample.library_request) (clone Sample.fresh)
     then
       cache_get CACHE_NAME (identity Sample.library_request)
         (storage (final out)) = Some (clone Sample.fresh) ∧
       (storage_match (identity Sample.library_request)
          (storage (returned out)) = None →
        storage_match (identity Sample.library_request)
          (storage (final out)) = Some (clone Sample.fresh))
     else
       storage (final out)
         = storage_open CACHE_NAME
             (meanwhile (Sample.online Sample.fresh)
                (storage Sample.no_caches)) ∧
       storage_match (identity Sample.library_request)
         (storage (final out))
         = storage_match (identity Sample.library_request)
             (storage (returned out))).
Proof.
  apply (cache_first_miss_returns_and_stores_live
           (Sample.online Sample.fresh) Sample.no_caches
           Sample.library_request Sample.fresh);
    [reflexivity | reflexivity | reflexivity | reflexivity | discriminate].
Defined.

(** Claim C5, as stated, fails where the cache refuses the write.  A POST
    request to a library host that misses the storage and is answered
    with status 200 is answered with the live response, but nothing is
    stored and a later search of the storage finds nothing; the same
    holds for a GET request whose 200 response has [Vary: *]. *)
Lemma cache_first_refused_write_is_not_stored :
  (classify (url Sample.library_post) = CacheFirst ∧
   storage_match (identity Sample.library_post) (storage Sample.no_caches)
     = None ∧
   respond (Sample.online Sample.fresh) (identity Sample.library_post)
     = Fulfilled Sample.fresh ∧
   status Sample.fresh = 200 ∧ type Sample.fresh ≠ error ∧
   ∃ out,
     on_fetch (Sample.online Sample.fresh) Sample.library_post
       Sample.no_caches = Some out ∧
     result out = Fulfilled Sample.fresh ∧
     storage_match (identity Sample.library_post) (storage (final out))
       = None) ∧
  (classify (url Sample.library_request) = CacheFirst ∧
   storage_match (identity Sample.library_request) (storage Sample.no_caches)
     = None ∧
   respond (Sample.online Sample.varying) (identity Sample.library_request)
     = Fulfilled Sample.varying ∧
   status Sample.varying = 200 ∧ type Sample.varying ≠ error ∧
   ∃ out,
     on_fetch (Sample.online Sample.varying) Sample.library_request
       Sample.no_caches = Some out ∧
     result out = Fulfilled Sample.varying ∧
     storage_match (identity Sample.library_request) (storage (final out))
       = None).
Proof.
  split.
  - repeat (split; [first [reflexivity | discriminate] |]).
    eexists. split; [reflexivity |]. split; reflexivity.
  - repeat (split; [first [reflexivity | discriminate] |]).
    eexists. split; [reflexivity |]. split; reflexivity.
Qed.

(** Claim C6.  A NetworkFirst request whose live fetch fails with a
    network error is answered from the storage as it is when the fetch has
    failed: with the stored snapshot when the identity is present, and
    with the synthetic 503 response that carries the app-offline message
    when it is absent.  Nothing is written. *)
Theorem network_first_falls_back_to_storage
    (net : Network) (w : World) (request : Request) (e : Error) :
  classify (url request) = NetworkFirst →
  respond net (identity request) = Rejected e →
  ∃ out, on_fetch net request w = Some out ∧
    (∀ snapshot,
       storage_match (identity request) (meanwhile net (storage w))
         = Some snapshot →
       result out = Fulfilled snapshot) ∧
    (storage_match (identity request) (meanwhile net (storage w)) = None →
     result out = Fulfilled app_offline ∧
     status app_offline = 503 ∧
     body app_offline = "Offline - Contenuto non disponibile") ∧
    storage (final out) = meanwhile net (storage w) ∧
    log out = [Fetch (identity request); CachesMatch (identity request)].
Proof.
  intros Hc Hr. apply classify_NetworkFirst in Hc as (Hh & Hf & Hl).
  unfold on_fetch, fetch_handler. rewrite Hh, Hf, Hl. simpl.
  eexists. split; [reflexivity |]. rewrite Hr. simpl.
  destruct (storage_match (identity request) (meanwhile net (storage w)))
    as [snap|]; simpl; repeat split; try congruence; discriminate.
Qed.

Lemma network_first_falls_back_to_storage_witness :
  ∃ out,
    on_fetch Sample.offline Sample.app_request Sample.stocked = Some out ∧
    (∀ snapshot,
       storage_match (identity Sample.app_request)
         (meanwhile Sample.offline (storage Sample.stocked)) = Some snapshot →
       result out = Fulfilled snapshot) ∧
    (storage_match (identity Sample.app_request)
       (meanwhile Sample.offline (storage Sample.stocked)) = None →
     result out = Fulfilled app_offline ∧
     status app_offline = 503 ∧
     body app_offline = "Offline - Contenuto non disponibile") ∧
    storage (final out) = meanwhile Sample.offline (storage Sample.stocked) ∧
    log out = [Fetch (identity Sample.app_request);
               CachesMatch (identity Sample.app_request)].
Proof.
  apply (network_first_falls_back_to_storage
           Sample.offline Sample.stocked Sample.app_request NetworkError);
    reflexivity.
Defined.

(** Claim C7.  A CacheFirst request whose identity is absent from the
    storage, whose live fetch fails with a network error and whose
    identity is still absent when the storage is searched again, is
    answered with the synthetic response of the library branch: status
    503, content type text/plain, the library-offline message.  That
    message is not the message of the app branch. *)
Theorem cache_first_offline_answer
    (net : Network) (w : World) (request : Request) (e : Error) :
  classify (url request) = CacheFirst →
  storage_match (identity request) (storage w) = None →
  respond net (identity request) = Rejected e →
  storage_match (identity request) (meanwhile net (storage w)) = None →
  ∃ out, on_fetch net request w = Some out ∧
    result out = Fulfilled library_offline ∧
    status library_offline = 503 ∧
    headers library_offline = [("Content-Type", "text/plain")] ∧
    body library_offline = "Offline - Libreria non disponibile" ∧
    body library_offline ≠ body app_offline ∧
    log out = [CachesMatch (identity request); Fetch (identity request);
               CachesMatch (identity request)].
Proof.
  intros Hc Hm Hr Hm'. apply classify_CacheFirst in Hc as (Hh & Hf & Hl).
  unfold on_fetch, fetch_handler. rewrite Hh, Hf, Hl. simpl.
  eexists. split; [reflexivity |]. rewrite Hm. simpl. rewrite Hr. simpl.
  rewrite Hm'. simpl. repeat split. discriminate.
Qed.

Lemma cache_first_offline_answer_witness :
  ∃ out,
    on_fetch Sample.offline Sample.library_request Sample.no_caches
      = Some out ∧
    result out = Fulfilled library_offline ∧
    status library_offline = 503 ∧
    headers library_offline = [("Content-Type", "text/plain")] ∧
    body library_offline = "Offline - Libreria non disponibile" ∧
    body library_offline ≠ body app_offline ∧
    log out = [CachesMatch (identity Sample.library_request);
               Fetch (identity Sample.library_request);
               CachesMatch (identity Sample.library_request)].
Proof.
  apply (cache_first_offline_answer
           Sample.offline Sample.no_caches Sample.library_request
           NetworkError); reflexivity.
Defined.

(** Claim C10.  On the request path every call that creates, fills or
    removes a cache names the cache of the current generation.  Before the
    handler's promise settles the handler has written nothing (the storage
    is as it was, or as the rest of the system left it during the live
    fetch), and the write made after the answer leaves every cache with
    another name as it was. *)
Theorem request_path_writes_current_generation_only
    (net : Network) (w : World) (request : Request) (out : Outcome Response) :
  on_fetch net request w = Some out →
  Forall (fun o => ∀ name, writes_to o = Some name → name = CACHE_NAME)
    (log out) ∧
  (storage (returned out) = storage w ∨
   storage (returned out) = meanwhile net (storage w)) ∧
  (∀ name, name ≠ CACHE_NAME →
     get_cache name (storage (final out))
       = get_cache name (storage (returned out))).
Proof.
  unfold on_fetch, fetch_handler.
  destruct (isHttp (url request)); simpl; [| discriminate].
  destruct (isFirebase (url request)); [| destruct (isLibrary (url request))];
    intros [= <-]; simpl.
  - destruct (respond net (identity request)); simpl;
      repeat split; auto; repeat constructor; simpl; congruence.
  - destruct (storage_match (identity request) (storage w)); simpl.
    { repeat split; auto; repeat constructor; simpl; congruence. }
    destruct (respond net (identity request)) as [response|e]; simpl.
    + destruct (negb (status response =? 200)
                || is_error_type (type response)); simpl.
      * repeat split; auto; repeat constructor; simpl; congruence.
      * destruct (cacheable (identity request) (clone response)); simpl;
          (repeat split; auto;
           [ repeat constructor; simpl; congruence
           | intros name Hne;
             rewrite ?get_cache_put_ne, ?get_cache_open_ne by exact Hne;
             reflexivity ]).
    + destruct (storage_match (identity request)
                  (meanwhile net (storage w))); simpl;
        repeat split; auto; repeat constructor; simpl; congruence.
  - destruct (respond net (identity request)) as [response|e]; simpl.
    + destruct (cacheable (identity request) (clone response)); simpl;
        (repeat split; auto;
         [ repeat constructor; simpl; congruence
         | intros name Hne;
           rewrite ?get_cache_put_ne, ?get_cache_open_ne by exact Hne;
           reflexivity ]).
    + destruct (storage_match (identity request)
                  (meanwhile net (storage w))); simpl;
        repeat split; auto; repeat constructor; simpl; congruence.
Qed.

Lemma request_path_writes_current_generation_only_witness :
  ∃ out,
    on_fetch (Sample.online Sample.fresh) Sample.app_request
      Sample.three_generations = Some out ∧
    Forall (fun o => ∀ name, writes_to o = Some name → name = CACHE_NAME)
      (log out) ∧
    (storage (returned out) = storage Sample.three_generations ∨
     storage (returned out) =
       meanwhile (Sample.online Sample.fresh)
         (storage Sample.three_generations)) ∧
    (∀ name, name ≠ CACHE_NAME →
       get_cache name (storage (final out))
         = get_cache name (storage (returned out))).
Proof.
  eexists. split; [reflexivity |].
  apply (request_path_writes_current_generation_only
           (Sample.online Sample.fresh) Sample.three_generations
           Sample.app_request).
  reflexivity.
Defined.

(** ** Activation *)

Section ActivateFacts.

Variable net : Network.

Lemma stale_names_spec (name : string) (names : list string) :
  In name (stale_names names) ↔ In name names ∧ name ≠ CACHE_NAME.
Proof.
  unfold stale_names. rewrite filter_In.
  destruct (String.eqb_spec name CACHE_NAME); simpl; split;
    intros [? ?]; split; congruence.
Qed.

Lemma sweep_fold (names : list string) (s : CacheStorage) :
  fold_left
    (fun acc name =>
       (if negb (String.eqb name CACHE_NAME)
        then storage_delete name else fun s' => s') acc)
    names s
  = delete_each (stale_names names) s.
Proof.
  revert s. induction names as [|n names IH]; intros s; simpl;
    [reflexivity |].
  rewrite IH. destruct (String.eqb n CACHE_NAME); reflexivity.
Qed.

Lemma sweep_log (names : list string) :
  concat
    (map (fun name =>
            if negb (String.eqb name CACHE_NAME)
            then [CachesDelete name] else [])
       names)
  = map CachesDelete (stale_names names).
Proof.
  induction names as [|n names IH]; simpl; [reflexivity |].
  rewrite IH. destruct (String.eqb n CACHE_NAME); reflexivity.
Qed.

Lemma run_activate_handler (w : World) :
  run net activate_handler w =
  {| result := Fulfilled tt;
     returned :=
       claim
         (with_storage
            (delete_each (stale_names (storage_keys (storage w)))) w);
     final :=
       claim
         (with_storage
            (delete_each (stale_names (storage_keys (storage w)))) w);
     log := CachesKeys
            :: map CachesDelete (stale_names (storage_keys (storage w)))
            ++ [ClientsClaim] |}.
Proof.
  unfold activate_handler. simpl.
  rewrite run_chain_plain.
  - edestruct (run_Promise_all_map net
                 (fun cacheName =>
                    if negb (String.eqb cacheName CACHE_NAME)
                    then then_ (caches_delete cacheName)
                           (fun deleted => Resolve (Some deleted))
                    else Resolve None)
                 (fun name =>
                    if negb (String.eqb name CACHE_NAME)
                    then storage_delete name else fun s' => s')
                 (fun name =>
                    if negb (String.eqb name CACHE_NAME)
                    then [CachesDelete name] else [])
                 (storage_keys (storage w)) w) as [xs Hxs].
    + intros n. destruct (negb (String.eqb n CACHE_NAME)); simpl; auto.
    + intros n w'. destruct (negb (String.eqb n CACHE_NAME)); simpl.
      * eexists. reflexivity.
      * eexists. destruct w'. reflexivity.
    + rewrite Hxs. unfold and_then, with_storage. simpl.
      rewrite sweep_fold, sweep_log. reflexivity.
  - apply plain_Promise_all. intros p Hp.
    apply in_map_iff in Hp as [n [<- _]].
    destruct (negb (String.eqb n CACHE_NAME)); simpl; auto.
Qed.

Lemma activate_final_keys (w : World) (name : string) :
  In name (storage_keys (storage (final (run net activate_handler w)))) ↔
  name = CACHE_NAME ∧ In name (storage_keys (storage w)).
Proof.
  rewrite run_activate_handler. simpl.
  rewrite keys_delete_each, stale_names_spec.
  destruct (String.eqb_spec name CACHE_NAME); tauto.
Qed.

Lemma has_cache_put (name n : string) (i : Identity) (r : Response)
    (s : CacheStorage) :
  has_cache name (storage_put n i r s) = has_cache name s.
Proof.
  induction s as [|[m c] s IH]; simpl; [reflexivity |].
  destruct (String.eqb m n); simpl; rewrite IH; reflexivity.
Qed.

Lemma has_cache_put_all (name n : string) (l : list (Identity * Response))
    (s : CacheStorage) :
  has_cache name (put_all n l s) = has_cache name s.
Proof.
  unfold put_all. revert s.
  induction l as [|[i r] l IH]; intros s; simpl; [reflexivity |].
  rewrite IH. apply has_cache_put.
Qed.

(** The install step leaves the current generation's cache in the
    storage, whatever the network did. *)
Lemma install_creates_current_cache (w : World) :
  has_cache CACHE_NAME (storage (final (run net install_handler w))) = true.
Proof.
  unfold install_handler. cbn -[fetch_all urlsToCache].
  destruct (fetch_all net urlsToCache) as [l|]; simpl;
    [destruct (duplicated (map (fun p => snd (fst p)) l)); simpl |].
  - apply has_cache_open.
  - rewrite has_cache_put_all. apply has_cache_open.
  - apply has_cache_open.
Qed.

(** Install, then activate, with nothing in between: the current
    generation's name is the only cache name left. *)
Lemma install_then_activate (w : World) (name : string) :
  In name
    (storage_keys
       (storage
          (final (run net activate_handler
                    (final (run net install_handler w)))))) ↔
  name = CACHE_NAME.
Proof.
  rewrite activate_final_keys. split; [tauto |]. intros ->.
  split; [reflexivity |]. apply has_cache_keys, install_creates_current_cache.
Qed.

End ActivateFacts.

(** Claim C8, as the code has it.  Activation fulfils, and when it has
    completed the existing cache names are those of the names before
    activation that equal the current generation's name: every cache with
    another name has been deleted, and the current generation's cache, if
    there was one, is still there with its entries.  So the enumeration is
    exactly the current generation's name when its cache existed at the
    start of activation, and no cache at all remains otherwise.  The
    deletions are made before the clients are claimed. *)
Theorem activation_keeps_current_generation_only (net : Network) (w : World) :
  let out := run net activate_handler w in
  result out = Fulfilled tt ∧
  (∀ name, In name (storage_keys (storage (final out))) ↔
           name = CACHE_NAME ∧ In name (storage_keys (storage w))) ∧
  get_cache CACHE_NAME (storage (final out))
    = get_cache CACHE_NAME (storage w) ∧
  (if has_cache CACHE_NAME (storage w)
   then ∀ name, In name (storage_keys (storage (final out))) ↔
                name = CACHE_NAME
   else storage (final out) = []) ∧
  log out = CachesKeys
            :: map CachesDelete (stale_names (storage_keys (storage w)))
            ++ [ClientsClaim].
Proof.
  intros out. subst out. rewrite run_activate_handler. simpl.
  pose proof (activate_final_keys net w) as Hkeys.
  rewrite run_activate_handler in Hkeys. simpl in Hkeys.
  split; [reflexivity |]. split; [exact Hkeys |].
  split; [| split; [| reflexivity]].
  - apply get_cache_delete_each. rewrite stale_names_spec. tauto.
  - destruct (has_cache CACHE_NAME (storage w)) eqn:E.
    + apply has_cache_keys in E. intros name. rewrite Hkeys.
      split; [tauto | intros ->; tauto].
    + apply keys_nil. intros name Hn. apply Hkeys in Hn as [-> Hn].
      apply has_cache_keys in Hn. congruence.
Qed.

(** Claim C8, as stated, fails where the current generation's cache does
    not exist when activation starts: the handler deletes the other
    caches and creates none, so the enumeration is empty and is not the
    singleton of the current generation's name. *)
Lemma activation_without_current_cache_leaves_none :
  let out := run Sample.offline activate_handler Sample.legacy_only in
  result out = Fulfilled tt ∧
  storage_keys (storage (final out)) = [] ∧
  ¬ (∀ name, In name (storage_keys (storage (final out))) ↔
             name = CACHE_NAME).
Proof.
  simpl. repeat split. intros H.
  destruct (H CACHE_NAME) as [_ Hin]. apply (Hin eq_refl).
Qed.

(** ** The control channel *)

Section MessageFacts.

Variable net : Network.

Lemma data_type_is_unique (event : MessageEvent) (t t' : string) :
  data_type_is event t = true → t' ≠ t → data_type_is event t' = false.
Proof.
  unfold data_type_is. destruct (data event) as [d|]; [| discriminate].
  destruct (field "type" d) as [x|]; [| discriminate].
  intros H Hne. apply String.eqb_eq in H. subst x.
  apply String.eqb_neq. congruence.
Qed.

(** As [run_chain_plain], one [chain] further out. *)
Lemma run_chain_chain_plain {A B C : Type} (p : Promise A)
    (k1 : Settled A → Promise B) (k2 : Settled B → Promise C) (w : World) :
  plain p →
  run net (chain (chain p k1) k2) w =
  and_then (run net p w)
    (run net (chain (k1 (result (run net p w))) k2) (final (run net p w))).
Proof.
  revert B C k1 k2 w.
  induction p as [A a|A e|A o f IHf h IHh|A t IHt p IHp];
    intros B C k1 k2 w Hp.
  - simpl. unfold and_then. simpl.
    destruct (run net (chain (k1 (Fulfilled a)) k2) w); reflexivity.
  - simpl. unfold and_then. simpl.
    destruct (run net (chain (k1 (Rejected e)) k2) w); reflexivity.
  - destruct Hp as [Hf Hh]. simpl.
    destruct (fst (perform net o w)) as [x|e].
    + rewrite IHf by apply Hf. reflexivity.
    + rewrite IHh by apply Hh. reflexivity.
  - destruct Hp.
Qed.

Lemma run_forEach_postMessage (cs : list Client) (m : Message) (w : World) :
  run net (forEach cs (fun client => postMessage (ToClient client) m)) w =
  {| result := Fulfilled tt; returned := w; final := w;
     log := map (fun client => PostMessage (ToClient client) m) cs |}.
Proof.
  induction cs as [|c cs IH]; simpl; [reflexivity |].
  rewrite IH. reflexivity.
Qed.

Lemma run_delete_all (names : list string) (w : World) :
  ∃ xs,
    run net (Promise_all (map (fun name => caches_delete name) names)) w =
    {| result := Fulfilled xs;
       returned := with_storage (delete_each names) w;
       final := with_storage (delete_each names) w;
       log := map CachesDelete names |}.
Proof.
  destruct (run_Promise_all_map net (fun name => caches_delete name)
              storage_delete (fun name => [CachesDelete name]) names w)
    as [xs Hxs].
  - intros n. simpl. auto.
  - intros n w'. eexists. reflexivity.
  - exists xs. rewrite Hxs.
    assert (Hlog : concat (map (fun name => [CachesDelete name]) names)
                   = map CachesDelete names).
    { clear. induction names as [|n names IH]; simpl; [reflexivity |].
      rewrite IH. reflexivity. }
    rewrite Hlog. reflexivity.
Qed.

Lemma run_clear_cache_message (event : MessageEvent) (w : World) :
  data_type_is event "CLEAR_CACHE" = true →
  run net (message_handler event) w =
  {| result := Fulfilled tt;
     returned := with_storage (fun _ => []) w;
     final := with_storage (fun _ => []) w;
     log := CachesKeys
            :: map CachesDelete (storage_keys (storage w))
            ++ ClientsMatchAll
               :: map (fun client =>
                         PostMessage (ToClient client)
                           [("type", "CACHE_CLEARED");
                            ("message", "Cache pulita con successo!")])
                    (clients w) |}.
Proof.
  intros H. unfold message_handler.
  rewrite (data_type_is_unique event "CLEAR_CACHE" "SKIP_WAITING" H)
    by discriminate.
  rewrite (data_type_is_unique event "CLEAR_CACHE" "GET_VERSION" H)
    by discriminate.
  rewrite H. unfold clear_cache. simpl.
  rewrite run_chain_chain_plain.
  - destruct (run_delete_all (storage_keys (storage w)) w) as [xs Hxs].
    rewrite Hxs. simpl. rewrite run_forEach_postMessage.
    unfold and_then, with_storage. simpl.
    rewrite delete_each_keys. reflexivity.
  - apply plain_Promise_all. intros p Hp.
    apply in_map_iff in Hp as [n [<- _]]. simpl. auto.
Qed.

End MessageFacts.

(** Claim C9.  When the control channel has processed a CLEAR_CACHE
    command, the work given to [waitUntil] has fulfilled, the cache
    storage holds no cache at all (so no cache of any generation, the
    current one included, holds an entry), and every client that
    [clients.matchAll()] knows has been posted the CACHE_CLEARED
    message. *)
Theorem clear_cache_empties_storage_and_notifies
    (net : Network) (w : World) (event : MessageEvent) :
  data_type_is event "CLEAR_CACHE" = true →
  let out := run net (message_handler event) w in
  result out = Fulfilled tt ∧
  storage (final out) = [] ∧
  (∀ name i, cache_get name i (storage (final out)) = None) ∧
  (∀ client, In client (clients w) →
     In (PostMessage (ToClient client)
           [("type", "CACHE_CLEARED");
            ("message", "Cache pulita con successo!")])
        (log out)).
Proof.
  intros H out. subst out. rewrite run_clear_cache_message by exact H.
  simpl. repeat split.
  intros client Hc. right. apply in_or_app. right. right.
  apply in_map_iff. exists client. auto.
Qed.

Lemma clear_cache_empties_storage_and_notifies_witness :
  let out :=
    run Sample.offline (message_handler Sample.clear_cache_event)
      Sample.three_generations in
  result out = Fulfilled tt ∧
  storage (final out) = [] ∧
  (∀ name i, cache_get name i (storage (final out)) = None) ∧
  (∀ client, In client (clients Sample.three_generations) →
     In (PostMessage (ToClient client)
           [("type", "CACHE_CLEARED");
            ("message", "Cache pulita con successo!")])
        (log out)).
Proof.
  apply (clear_cache_empties_storage_and_notifies
           Sample.offline Sample.three_generations Sample.clear_cache_event).
  reflexivity.
Defined.

(** ** Installation *)

Section InstallFacts.

Variable net : Network.

(** The promise that the install handler gives to [waitUntil] fulfils
    whatever the network does: the final [catch] turns every rejection
    into a fulfilment. *)
Lemma install_handler_never_rejects (w : World) :
  result (run net install_handler w) = Fulfilled tt.
Proof.
  unfold install_handler. cbn -[fetch_all urlsToCache].
  destruct (fetch_all net urlsToCache) as [l|];
    [destruct (duplicated (map (fun p => snd (fst p)) l)) |]; reflexivity.
Qed.

(** What is left of a failed batch: the cache has been opened, nothing has
    been written to it, and [skipWaiting] has not been called. *)
Lemma install_handler_failed_batch (w : World) :
  fetch_all net urlsToCache = None →
  storage (final (run net install_handler w))
    = storage_open CACHE_NAME (storage w) ∧
  log (run net install_handler w)
    = [CachesOpen CACHE_NAME; CacheAddAll CACHE_NAME urlsToCache].
Proof.
  intros H. unfold install_handler. cbn -[fetch_all urlsToCache].
  rewrite H. split; reflexivity.
Qed.

(** The legacy worker has no [catch]: a failed batch rejects its install
    step, after which the platform discards the worker. *)
Lemma legacy_install_rejects_failed_batch (w : World) :
  fetch_all net Legacy.urlsToCache = None →
  result (run net Legacy.install_handler w) = Rejected TypeError ∧
  install_verdict (result (run net Legacy.install_handler w)) = Redundant.
Proof.
  intros H. unfold Legacy.install_handler.
  cbn -[fetch_all Legacy.urlsToCache]. rewrite H. split; reflexivity.
Qed.

(** A batch fails as soon as one fetch of the manifest fails. *)
Lemma fetch_all_fails (urls : list string) (u : string) (e : Error) :
  In u urls → respond net ("GET", resolve net u) = Rejected e →
  fetch_all net urls = None.
Proof.
  intros Hin Hr. induction urls as [|v urls IH]; [destruct Hin |].
  simpl. destruct Hin as [->|Hin].
  - rewrite Hr. reflexivity.
  - rewrite (IH Hin). destruct (respond net ("GET", resolve net v)) as [r|];
      [destruct (ok r && cacheable ("GET", resolve net v) r) |];
      reflexivity.
Qed.

(** So no failed fetch of a manifest locator fails the install step. *)
Lemma install_survives_failed_fetch (w : World) (u : string) (e : Error) :
  In u urlsToCache → respond net ("GET", resolve net u) = Rejected e →
  install_verdict (result (run net install_handler w)) = Installed.
Proof.
  intros _ _. rewrite install_handler_never_rejects. reflexivity.
Qed.

End InstallFacts.

(** Claim C1 against the code.  The network fails the fetch of
    [/manifest.json] and answers every other fetch; the storage holds the
    cache of the previous generation.  The batch fails, yet the promise
    that the install handler gives to [waitUntil] fulfils, so the platform
    takes the worker as installed; its cache exists and is empty, and
    [skipWaiting] has not been called.  When this worker is activated it
    deletes the previous generation's cache.  On the same input the install
    step of the legacy worker rejects. *)
Theorem install_fulfils_when_a_manifest_fetch_fails :
  let net := Sample.online_but "/manifest.json" Sample.fresh in
  let out := run net install_handler Sample.legacy_only in
  fetch_all net urlsToCache = None ∧
  result out = Fulfilled tt ∧
  install_verdict (result out) = Installed ∧
  log out = [CachesOpen CACHE_NAME; CacheAddAll CACHE_NAME urlsToCache] ∧
  get_cache CACHE_NAME (storage (final out)) = Some ∅ ∧
  get_cache Legacy.CACHE_NAME
    (storage (final (run net activate_handler (final out)))) = None ∧
  install_verdict
    (result (run net Legacy.install_handler Sample.legacy_only)) = Redundant.
Proof.
  intros net out.
  assert (Hbatch : fetch_all net urlsToCache = None)
    by (apply (fetch_all_fails net urlsToCache "/manifest.json" NetworkError);
        [right; right; left; reflexivity | reflexivity]).
  split; [exact Hbatch |].
  split; [apply install_handler_never_rejects |].
  split; [unfold out; rewrite install_handler_never_rejects; reflexivity |].
  destruct (install_handler_failed_batch net Sample.legacy_only Hbatch)
    as [Hst Hlog].
  split; [exact Hlog |].
  split; [unfold out; rewrite Hst; reflexivity |].
  split.
  - unfold out. rewrite run_activate_handler.
    cbn [final storage with_storage claim]. rewrite Hst. reflexivity.
  - apply legacy_install_rejects_failed_batch.
    apply (fetch_all_fails net Legacy.urlsToCache "/manifest.json"
             NetworkError);
      [right; right; left; reflexivity | reflexivity].
Qed.

(** * Further properties of the worker *)

(** ** The host tests *)

Section HostFacts.

Lemma append_assoc (a b c : string) :
  String.append (String.append a b) c = String.append a (String.append b c).
Proof.
  induction a as [|x a IH]; [reflexivity |].
  rewrite !append_cons, IH. reflexivity.
Qed.

(** Where a string occurs, so does each of its beginnings. *)
Lemma includes_beginning (s p q : string) :
  includes s (String.append p q) = true → includes s p = true.
Proof.
  rewrite !includes_spec. intros (before_ & after & ->).
  exists before_, (String.append q after). rewrite append_assoc. reflexivity.
Qed.

End HostFacts.

(** The third host test of the Firebase branch never decides: a hostname
    that contains [firebasestorage] contains [firebase], so the branch is
    taken exactly for the hostnames that contain [firebase] or
    [firestore]. *)
Theorem isFirebase_two_tests (u : URL) :
  isFirebase u =
  includes (hostname u) "firebase" || includes (hostname u) "firestore".
Proof.
  unfold isFirebase.
  destruct (includes (hostname u) "firebase") eqn:E1; [reflexivity |].
  destruct (includes (hostname u) "firestore") eqn:E2; [reflexivity |].
  simpl. destruct (includes (hostname u) "firebasestorage") eqn:E3;
    [| reflexivity].
  assert (includes (hostname u) "firebase" = true)
    by (apply (includes_beginning _ "firebase" "storage"); exact E3).
  congruence.
Qed.

(** ** Installation *)

Section BatchFacts.

Variable net : Network.

Lemma fetch_all_answered (urls : list string) :
  all_answered net urls →
  ∃ l, fetch_all net urls = Some l ∧
    map (fun p => snd (fst p)) l = map (resolve net) urls ∧
    (∀ u, In u urls →
       ∃ r, respond net ("GET", resolve net u) = Fulfilled r ∧
            In (("GET", resolve net u), r) l) ∧
    (∀ i r, In (i, r) l → respond net i = Fulfilled r).
Proof.
  induction urls as [|u urls IH]; intros H.
  - exists []. repeat split; intros; contradiction.
  - destruct IH as (l & Hl & Hloc & Hin & Hout).
    { intros v Hv. apply H. right. exact Hv. }
    destruct (H u (or_introl eq_refl)) as (r & Hr & Hok & Hacc).
    exists ((("GET", resolve net u), r) :: l). simpl.
    rewrite Hr, Hok, Hacc, Hl, Hloc.
    split; [reflexivity |]. split; [reflexivity |]. split.
    + intros v [<-|Hv].
      * exists r. split; [exact Hr | left; reflexivity].
      * destruct (Hin v Hv) as (r' & ? & ?). exists r'.
        split; [assumption | right; assumption].
    + intros i r' [[= <- <-]|Hi]; [exact Hr | apply Hout, Hi].
Qed.

Lemma cache_get_put_other (name n : string) (i j : Identity) (r : Response)
    (s : CacheStorage) :
  i ≠ j → cache_get name i (storage_put n j r s) = cache_get name i s.
Proof.
  intros Hne. unfold cache_get.
  induction s as [|[m c] s IH]; simpl; [reflexivity |].
  destruct (String.eqb_spec m n) as [->|Hm]; simpl.
  - destruct (String.eqb n name); [| exact IH].
    apply lookup_insert_ne. congruence.
  - destruct (String.eqb m name); [reflexivity | exact IH].
Qed.

Lemma cache_get_put_all_other (name : string) (i : Identity)
    (l : list (Identity * Response)) (s : CacheStorage) :
  ¬ In i (map fst l) →
  cache_get name i (put_all name l s) = cache_get name i s.
Proof.
  unfold put_all. revert s.
  induction l as [|[j r] l IH]; intros s Hn; simpl; [reflexivity |].
  rewrite IH by (intros ?; apply Hn; right; assumption).
  apply cache_get_put_other. intros ->. apply Hn. left. reflexivity.
Qed.

(** A batch in which an identity has one response only leaves that
    response readable for the identity. *)
Lemma cache_get_put_all (name : string) (i : Identity) (r : Response)
    (l : list (Identity * Response)) (s : CacheStorage) :
  has_cache name s = true →
  (∀ r', In (i, r') l → r' = r) → In (i, r) l →
  cache_get name i (put_all name l s) = Some r.
Proof.
  revert s. induction l as [|[j rj] l IH]; intros s Hs Hfun Hin;
    [destruct Hin |].
  change (put_all name ((j, rj) :: l) s)
    with (put_all name l (storage_put name j rj s)).
  destruct (decide (i ∈ map fst l)) as [Hi|Hi].
  - apply list_elem_of_In, in_map_iff in Hi as ([i' r'] & Heq & Hi).
    simpl in Heq. subst i'.
    assert (r' = r) by (apply Hfun; right; exact Hi). subst r'.
    apply IH; [rewrite has_cache_put; exact Hs | | exact Hi].
    intros r'' H''. apply Hfun. right. exact H''.
  - rewrite list_elem_of_In in Hi.
    rewrite cache_get_put_all_other by exact Hi.
    destruct Hin as [[= -> ->]|Hin].
    + apply cache_get_put, Hs.
    + exfalso. apply Hi. apply in_map_iff. exists (i, r). auto.
Qed.

Lemma get_cache_put_all_ne (n name : string)
    (l : list (Identity * Response)) (s : CacheStorage) :
  n ≠ name → get_cache n (put_all name l s) = get_cache n s.
Proof.
  intros Hne. unfold put_all. revert s.
  induction l as [|[j r] l IH]; intros s; simpl; [reflexivity |].
  rewrite IH. apply get_cache_put_ne, Hne.
Qed.

End BatchFacts.

(** When every locator of the manifest is answered with an [ok] response
    that the cache accepts, and no two locators of the manifest resolve
    to the same locator, the install step fulfils, asks to skip the
    waiting phase, and leaves in the current generation's cache, under
    the resolved locator of every entry of the manifest, the response
    that the network gave for it; the caches of other generations are not
    touched. *)
Theorem install_populates_current_cache (net : Network) (w : World) :
  all_answered net urlsToCache →
  duplicated (map (resolve net) urlsToCache) = false →
  let out := run net install_handler w in
  result out = Fulfilled tt ∧
  log out = [CachesOpen CACHE_NAME; CacheAddAll CACHE_NAME urlsToCache;
             SkipWaiting] ∧
  (∀ u r, In u urlsToCache →
     respond net ("GET", resolve net u) = Fulfilled r →
     cache_get CACHE_NAME ("GET", resolve net u) (storage (final out))
       = Some r) ∧
  (∀ name, name ≠ CACHE_NAME →
     get_cache name (storage (final out)) = get_cache name (storage w)).
Proof.
  intros H Hd out. subst out.
  destruct (fetch_all_answered net urlsToCache H)
    as (l & Hl & Hloc & Hin & Hout).
  unfold install_handler. cbn -[fetch_all urlsToCache put_all duplicated].
  rewrite Hl. cbn -[fetch_all urlsToCache put_all duplicated].
  rewrite Hloc, Hd. cbn -[fetch_all urlsToCache put_all duplicated].
  split; [reflexivity |]. split; [reflexivity |]. split.
  - intros u r Hu Hr. destruct (Hin u Hu) as (r' & Hr' & Hl').
    assert (r' = r) by congruence. subst r'.
    apply cache_get_put_all; [apply has_cache_open | | exact Hl'].
    intros r' H'. apply Hout in H'. congruence.
  - intros name Hne.
    rewrite get_cache_put_all_ne, get_cache_open_ne by exact Hne.
    reflexivity.
Qed.

Lemma install_populates_current_cache_witness :
  let out :=
    run (Sample.online Sample.fresh) install_handler Sample.legacy_only in
  result out = Fulfilled tt ∧
  log out = [CachesOpen CACHE_NAME; CacheAddAll CACHE_NAME urlsToCache;
             SkipWaiting] ∧
  (∀ u r, In u urlsToCache →
     respond (Sample.online Sample.fresh)
       ("GET", resolve (Sample.online Sample.fresh) u) = Fulfilled r →
     cache_get CACHE_NAME ("GET", resolve (Sample.online Sample.fresh) u)
       (storage (final out)) = Some r) ∧
  (∀ name, name ≠ CACHE_NAME →
     get_cache name (storage (final out))
       = get_cache name (storage Sample.legacy_only)).
Proof.
  apply (install_populates_current_cache
           (Sample.online Sample.fresh) Sample.legacy_only).
  - intros u Hu. exists Sample.fresh. split; [reflexivity |].
    split; [reflexivity |].
    simpl in Hu. repeat (destruct Hu as [<-|Hu]; [reflexivity |]).
    destruct Hu.
  - reflexivity.
Defined.

(** When the fetch of one locator of the manifest fails, the install step
    writes no entry and does not ask to skip the waiting phase: the
    storage is what opening the current generation's cache makes of it, so
    every cache that existed keeps its entries. *)
Theorem install_failed_batch_writes_nothing
    (net : Network) (w : World) (u : string) (e : Error) :
  In u urlsToCache → respond net ("GET", resolve net u) = Rejected e →
  let out := run net install_handler w in
  storage (final out) = storage_open CACHE_NAME (storage w) ∧
  ¬ In SkipWaiting (log out) ∧
  (∀ name c, get_cache name (storage w) = Some c →
     get_cache name (storage (final out)) = Some c).
Proof.
  intros Hu Hr out. subst out.
  destruct (install_handler_failed_batch net w
              (fetch_all_fails net urlsToCache u e Hu Hr)) as [Hst Hlog].
  rewrite Hst, Hlog. split; [reflexivity |]. split.
  - intros [H|[H|[]]]; discriminate H.
  - intros name c Hc. unfold storage_open.
    destruct (has_cache CACHE_NAME (storage w)); [exact Hc |].
    rewrite get_cache_app_l; [exact Hc |].
    apply has_cache_get. eauto.
Qed.

Lemma install_failed_batch_writes_nothing_witness :
  let out :=
    run (Sample.online_but "/index.html" Sample.fresh) install_handler
      Sample.stocked in
  storage (final out) = storage_open CACHE_NAME (storage Sample.stocked) ∧
  ¬ In SkipWaiting (log out) ∧
  (∀ name c, get_cache name (storage Sample.stocked) = Some c →
     get_cache name (storage (final out)) = Some c).
Proof.
  apply (install_failed_batch_writes_nothing
           (Sample.online_but "/index.html" Sample.fresh) Sample.stocked
           "/index.html" NetworkError).
  - right. left. reflexivity.
  - reflexivity.
Defined.

(** ** The request path, further *)

Section LookupFacts.

Lemma storage_open_cons_ne (name n : string) (c : Cache) (s : CacheStorage) :
  n ≠ name → storage_open name ((n, c) :: s) = (n, c) :: storage_open name s.
Proof.
  intros Hne. unfold storage_open. simpl.
  destruct (String.eqb_spec n name); [congruence |].
  destruct (has_cache name s); reflexivity.
Qed.

(** What a search finds after a write to the cache called [name]: the
    snapshot of an older cache when one holds the identity, and otherwise
    what was written. *)
Lemma storage_match_after_put (name : string) (i : Identity) (r : Response)
    (s : CacheStorage) :
  storage_match i (storage_put name i r (storage_open name s)) =
  match storage_match i (before name s) with
  | Some snapshot => Some snapshot
  | None => Some r
  end.
Proof.
  induction s as [|[n c] s IH].
  - unfold storage_open. simpl. rewrite String.eqb_refl. simpl.
    rewrite lookup_insert_eq. reflexivity.
  - destruct (String.eqb_spec n name) as [->|Hne].
    + unfold storage_open. simpl. rewrite !String.eqb_refl. simpl.
      rewrite String.eqb_refl. simpl. rewrite lookup_insert_eq. reflexivity.
    + rewrite storage_open_cons_ne by exact Hne. simpl.
      destruct (String.eqb_spec n name); [congruence |]. simpl.
      destruct (c !! i); [reflexivity | exact IH].
Qed.

End LookupFacts.

(** For a request over http that is not for a Firebase host, the promise
    given to [respondWith] never rejects: whichever way the live fetch
    settles, with a response or with a failure, and whatever the storage
    holds, the promise fulfils, with the live response, a stored snapshot,
    or one of the two synthetic responses.  (A live fetch that never
    settles is outside the network model; nothing is said of it.) *)
Theorem intercepted_request_never_rejects
    (net : Network) (w : World) (request : Request) :
  isHttp (url request) = true →
  isFirebase (url request) = false →
  ∃ out r, on_fetch net request w = Some out ∧
    result out = Fulfilled r ∧
    (respond net (identity request) = Fulfilled r ∨
     storage_match (identity request) (storage w) = Some r ∨
     storage_match (identity request) (meanwhile net (storage w)) = Some r ∨
     r = library_offline ∨ r = app_offline).
Proof.
  intros Hh Hf. unfold on_fetch, fetch_handler. rewrite Hh, Hf. simpl.
  destruct (isLibrary (url request)); simpl.
  - destruct (storage_match (identity request) (storage w)) as [c|] eqn:Em;
      simpl; [eauto 10 |].
    destruct (respond net (identity request)) as [response|e] eqn:Er; simpl.
    + destruct (negb (status response =? 200)
                || is_error_type (type response)); simpl; eauto 10.
    + destruct (storage_match (identity request)
                  (meanwhile net (storage w))) eqn:Em'; simpl; eauto 10.
  - destruct (respond net (identity request)) as [response|e] eqn:Er; simpl;
      [eauto 10 |].
    destruct (storage_match (identity request)
                (meanwhile net (storage w))) eqn:Em'; simpl; eauto 10.
Qed.

Lemma intercepted_request_never_rejects_witness :
  ∃ out r,
    on_fetch Sample.offline Sample.library_request Sample.no_caches
      = Some out ∧
    result out = Fulfilled r ∧
    (respond Sample.offline (identity Sample.library_request) = Fulfilled r ∨
     storage_match (identity Sample.library_request)
       (storage Sample.no_caches) = Some r ∨
     storage_match (identity Sample.library_request)
       (meanwhile Sample.offline (storage Sample.no_caches)) = Some r ∨
     r = library_offline ∨ r = app_offline).
Proof.
  apply (intercepted_request_never_rejects
           Sample.offline Sample.no_caches Sample.library_request);
    reflexivity.
Defined.

(** A library request that misses the storage and whose live response
    does not have status 200, or is an error response, is answered with
    that response as it is, and the response is not stored: the handler
    makes no write. *)
Theorem cache_first_does_not_store_other_statuses
    (net : Network) (w : World) (request : Request) (response : Response) :
  classify (url request) = CacheFirst →
  storage_match (identity request) (storage w) = None →
  respond net (identity request) = Fulfilled response →
  status response ≠ 200 ∨ type response = error →
  ∃ out, on_fetch net request w = Some out ∧
    result out = Fulfilled response ∧
    log out = [CachesMatch (identity request); Fetch (identity request)] ∧
    storage (final out) = meanwhile net (storage w).
Proof.
  intros Hc Hm Hr Hs. apply classify_CacheFirst in Hc as (Hh & Hf & Hl).
  unfold on_fetch, fetch_handler. rewrite Hh, Hf, Hl. simpl.
  eexists. split; [reflexivity |]. rewrite Hm. simpl. rewrite Hr. simpl.
  assert (He : negb (status response =? 200)
               || is_error_type (type response) = true).
  { destruct Hs as [Hs|Hs].
    - apply Z.eqb_neq in Hs. rewrite Hs. reflexivity.
    - rewrite Hs. apply orb_true_r. }
  rewrite He. simpl. repeat split.
Qed.

Lemma cache_first_does_not_store_other_statuses_witness :
  ∃ out,
    on_fetch (Sample.online Sample.missing) Sample.library_request
      Sample.no_caches = Some out ∧
    result out = Fulfilled Sample.missing ∧
    log out = [CachesMatch (identity Sample.library_request);
               Fetch (identity Sample.library_request)] ∧
    storage (final out) =
      meanwhile (Sample.online Sample.missing) (storage Sample.no_caches).
Proof.
  apply (cache_first_does_not_store_other_statuses
           (Sample.online Sample.missing) Sample.no_caches
           Sample.library_request Sample.missing);
    [reflexivity | reflexivity | reflexivity | left; discriminate].
Defined.

(** A library request that missed the storage and was answered live with
    a status-200 response (the identity being still absent when the
    answer came), asked a second time.  When the cache accepted the write
    of the first answer, the second request is answered from the storage
    with that response and without a live fetch, whatever the network
    does then.  When the cache refused it (a request that is not a GET
    request over http or https, a [Vary: *] response), nothing was stored
    and the second request goes to the network again. *)
Theorem cache_first_second_request_after_miss
    (net : Network) (w : World) (request : Request) (response : Response) :
  classify (url request) = CacheFirst →
  storage_match (identity request) (storage w) = None →
  respond net (identity request) = Fulfilled response →
  status response = 200 →
  type response ≠ error →
  storage_match (identity request) (meanwhile net (storage w)) = None →
  ∃ out, on_fetch net request w = Some out ∧
    ∀ net', ∃ out', on_fetch net' request (final out) = Some out' ∧
      if cacheable (identity request) (clone response)
      then result out' = Fulfilled response ∧
           log out' = [CachesMatch (identity request)] ∧
           final out' = final out
      else In (Fetch (identity request)) (log out').
Proof.
  intros Hc Hm Hr Hs Ht Hm'.
  apply classify_CacheFirst in Hc as (Hh & Hf & Hl).
  unfold on_fetch, fetch_handler. rewrite Hh, Hf, Hl. simpl.
  eexists. split; [reflexivity |]. intros net'.
  eexists. split; [reflexivity |].
  rewrite Hm. simpl. rewrite Hr. simpl.
  assert (He : is_error_type (type response) = false)
    by (destruct (type response); try reflexivity; congruence).
  rewrite Hs, He. simpl.
  destruct (cacheable (identity request) (clone response)); simpl.
  - rewrite (storage_match_put_open CACHE_NAME _ (clone response) _ Hm').
    simpl. repeat split.
  - rewrite storage_match_open, Hm'. simpl. right. left. reflexivity.
Qed.

Lemma cache_first_second_request_after_miss_witness :
  ∃ out,
    on_fetch (Sample.online Sample.fresh) Sample.library_request
      Sample.no_caches = Some out ∧
    ∀ net', ∃ out',
      on_fetch net' Sample.library_request (final out) = Some out' ∧
      if cacheable (identity Sample.library_request) (clone Sample.fresh)
      then result out' = Fulfilled Sample.fresh ∧
           log out' = [CachesMatch (identity Sample.library_request)] ∧
           final out' = final out
      else In (Fetch (identity Sample.library_request)) (log out').
Proof.
  apply (cache_first_second_request_after_miss
           (Sample.online Sample.fresh) Sample.no_caches
           Sample.library_request Sample.fresh);
    [reflexivity | reflexivity | reflexivity | reflexivity | discriminate
    | reflexivity].
Defined.

(** An app request answered live and then asked again while the network is
    down (nothing else touching the storage during the failed fetch).
    When the cache accepted the write of the first answer, the second
    answer is that response, unless a cache created before the current
    generation's cache holds a snapshot for the identity: the search goes
    through the caches in creation order, so that older snapshot is the
    answer.  When the cache refused the write (a request that is not a
    GET request over http or https, a 206 or [Vary: *] response), nothing
    was stored by the first request: the second answer is what the
    storage held before, or the synthetic 503 response. *)
Theorem network_first_offline_after_online
    (net net' : Network) (w : World) (request : Request)
    (response : Response) (e : Error) :
  classify (url request) = NetworkFirst →
  respond net (identity request) = Fulfilled response →
  respond net' (identity request) = Rejected e →
  (∀ s, meanwhile net' s = s) →
  ∃ out out', on_fetch net request w = Some out ∧
    on_fetch net' request (final out) = Some out' ∧
    result out' =
      Fulfilled
        (if cacheable (identity request) (clone response)
         then
           match storage_match (identity request)
                   (before CACHE_NAME (meanwhile net (storage w))) with
           | Some snapshot => snapshot
           | None => response
           end
         else
           match storage_match (identity request)
                   (meanwhile net (storage w)) with
           | Some snapshot => snapshot
           | None => app_offline
           end).
Proof.
  intros Hc Hr Hr' Hq. apply classify_NetworkFirst in Hc as (Hh & Hf & Hl).
  unfold on_fetch, fetch_handler. rewrite Hh, Hf, Hl. simpl.
  eexists. eexists. split; [reflexivity |]. split; [reflexivity |].
  rewrite Hr'. simpl. rewrite Hr. simpl.
  destruct (cacheable (identity request) (clone response)); simpl;
    rewrite Hq.
  - rewrite storage_match_after_put.
    destruct (storage_match (identity request)
                (before CACHE_NAME (meanwhile net (storage w))));
      reflexivity.
  - rewrite storage_match_open.
    destruct (storage_match (identity request) (meanwhile net (storage w)));
      reflexivity.
Qed.

Lemma network_first_offline_after_online_witness :
  ∃ out out',
    on_fetch (Sample.online Sample.fresh) Sample.app_request Sample.shadowed
      = Some out ∧
    on_fetch Sample.offline Sample.app_request (final out) = Some out' ∧
    result out' =
      Fulfilled
        (if cacheable (identity Sample.app_request) (clone Sample.fresh)
         then
           match storage_match (identity Sample.app_request)
                   (before CACHE_NAME
                      (meanwhile (Sample.online Sample.fresh)
                         (storage Sample.shadowed))) with
           | Some snapshot => snapshot
           | None => Sample.fresh
           end
         else
           match storage_match (identity Sample.app_request)
                   (meanwhile (Sample.online Sample.fresh)
                      (storage Sample.shadowed)) with
           | Some snapshot => snapshot
           | None => app_offline
           end).
Proof.
  apply (network_first_offline_after_online
           (Sample.online Sample.fresh) Sample.offline Sample.shadowed
           Sample.app_request Sample.fresh NetworkError);
    reflexivity.
Defined.

(** Every call that the handler makes for a request is about that request:
    a search or a live fetch for its identity, the opening of the current
    generation's cache, or a write of its identity to that cache.  So the
    request path never deletes a cache, never enumerates the caches and
    never addresses the clients; and it makes at most one live fetch and
    at most one write per request. *)
Theorem request_path_calls
    (net : Network) (w : World) (request : Request) (out : Outcome Response) :
  on_fetch net request w = Some out →
  Forall (request_path_call (identity request)) (log out) ∧
  (length (List.filter is_fetch (log out)) ≤ 1)%nat ∧
  (length (List.filter is_put (log out)) ≤ 1)%nat.
Proof.
  unfold on_fetch, fetch_handler.
  destruct (isHttp (url request)); simpl; [| discriminate].
  destruct (isFirebase (url request)); [| destruct (isLibrary (url request))];
    intros [= <-]; simpl.
  - destruct (respond net (identity request)); simpl;
      repeat split; repeat constructor.
  - destruct (storage_match (identity request) (storage w)); simpl.
    { repeat split; repeat constructor. }
    destruct (respond net (identity request)) as [response|e]; simpl.
    + destruct (negb (status response =? 200)
                || is_error_type (type response)); simpl;
        try destruct (cacheable (identity request) (clone response)); simpl;
        repeat split; repeat constructor.
    + destruct (storage_match (identity request)
                  (meanwhile net (storage w))); simpl;
        repeat split; repeat constructor.
  - destruct (respond net (identity request)) as [response|e]; simpl.
    + destruct (cacheable (identity request) (clone response)); simpl;
        repeat split; repeat constructor.
    + destruct (storage_match (identity request)
                  (meanwhile net (storage w))); simpl;
        repeat split; repeat constructor.
Qed.

Lemma request_path_calls_witness :
  ∃ out,
    on_fetch (Sample.online Sample.fresh) Sample.app_request Sample.stocked
      = Some out ∧
    Forall (request_path_call (identity Sample.app_request)) (log out) ∧
    (length (List.filter is_fetch (log out)) ≤ 1)%nat ∧
    (length (List.filter is_put (log out)) ≤ 1)%nat.
Proof.
  eexists. split; [reflexivity |].
  apply (request_path_calls (Sample.online Sample.fresh) Sample.stocked
           Sample.app_request).
  reflexivity.
Defined.

(** ** The control channel, further *)

(** A GET_VERSION message that comes with a port is answered on its first
    port with the version of the worker, and with nothing else: the
    storage and the clients are left alone. *)
Theorem get_version_replies_on_first_port
    (net : Network) (w : World) (event : MessageEvent)
    (port : Port) (others : list Port) :
  data_type_is event "GET_VERSION" = true →
  ports event = port :: others →
  let out := run net (message_handler event) w in
  result out = Fulfilled tt ∧
  log out = [PostMessage (ToPort port) [("version", CACHE_VERSION)]] ∧
  field "version" [("version", CACHE_VERSION)] = Some CACHE_NAME ∧
  final out = w.
Proof.
  intros H Hp out. subst out. unfold message_handler.
  rewrite (data_type_is_unique event "GET_VERSION" "SKIP_WAITING" H)
    by discriminate.
  rewrite (data_type_is_unique event "GET_VERSION" "CLEAR_CACHE" H)
    by discriminate.
  rewrite H, Hp. simpl. repeat split.
Qed.

Lemma get_version_replies_on_first_port_witness :
  let out :=
    run Sample.offline (message_handler Sample.get_version_event)
      Sample.stocked in
  result out = Fulfilled tt ∧
  log out = [PostMessage (ToPort 7%nat) [("version", CACHE_VERSION)]] ∧
  field "version" [("version", CACHE_VERSION)] = Some CACHE_NAME ∧
  final out = Sample.stocked.
Proof.
  apply (get_version_replies_on_first_port
           Sample.offline Sample.stocked Sample.get_version_event
           7%nat []); reflexivity.
Defined.

(** A GET_VERSION message that comes without a port makes the handler
    throw: nothing is posted and nothing else is done. *)
Theorem get_version_without_port_throws
    (net : Network) (w : World) (event : MessageEvent) :
  data_type_is event "GET_VERSION" = true →
  ports event = [] →
  let out := run net (message_handler event) w in
  result out = Rejected TypeError ∧ log out = [] ∧ final out = w.
Proof.
  intros H Hp out. subst out. unfold message_handler.
  rewrite (data_type_is_unique event "GET_VERSION" "SKIP_WAITING" H)
    by discriminate.
  rewrite (data_type_is_unique event "GET_VERSION" "CLEAR_CACHE" H)
    by discriminate.
  rewrite H, Hp. simpl. repeat split.
Qed.

Lemma get_version_without_port_throws_witness :
  let out :=
    run Sample.offline
      (message_handler Sample.get_version_event_without_port)
      Sample.stocked in
  result out = Rejected TypeError ∧ log out = [] ∧
  final out = Sample.stocked.
Proof.
  apply (get_version_without_port_throws
           Sample.offline Sample.stocked
           Sample.get_version_event_without_port); reflexivity.
Defined.

(** A SKIP_WAITING message makes the worker ask to skip the waiting
    phase, and nothing else. *)
Theorem skip_waiting_message_only_skips
    (net : Network) (w : World) (event : MessageEvent) :
  data_type_is event "SKIP_WAITING" = true →
  let out := run net (message_handler event) w in
  result out = Fulfilled tt ∧ log out = [SkipWaiting] ∧ final out = w.
Proof.
  intros H out. subst out. unfold message_handler.
  rewrite (data_type_is_unique event "SKIP_WAITING" "CLEAR_CACHE" H)
    by discriminate.
  rewrite (data_type_is_unique event "SKIP_WAITING" "GET_VERSION" H)
    by discriminate.
  rewrite H. simpl. repeat split.
Qed.

Lemma skip_waiting_message_only_skips_witness :
  let out :=
    run Sample.offline (message_handler Sample.skip_waiting_event)
      Sample.stocked in
  result out = Fulfilled tt ∧ log out = [SkipWaiting] ∧
  final out = Sample.stocked.
Proof.
  apply (skip_waiting_message_only_skips
           Sample.offline Sample.stocked Sample.skip_waiting_event).
  reflexivity.
Defined.

(** A message that is not a CLEAR_CACHE command never reaches the cache
    storage: no call of the handler goes to it and the world is left as it
    was.  A message without data, or whose type is none of the three
    commands, makes the handler do nothing at all. *)
Theorem other_messages_leave_storage_alone
    (net : Network) (w : World) (event : MessageEvent) :
  data_type_is event "CLEAR_CACHE" = false →
  let out := run net (message_handler event) w in
  final out = w ∧
  Forall (fun o => touches_storage o = false) (log out) ∧
  (if data_type_is event "SKIP_WAITING" || data_type_is event "GET_VERSION"
   then True
   else result out = Fulfilled tt ∧ log out = []).
Proof.
  intros H out. subst out. unfold message_handler. rewrite H.
  destruct (data_type_is event "SKIP_WAITING") eqn:Es.
  - rewrite (data_type_is_unique event "SKIP_WAITING" "GET_VERSION" Es)
      by discriminate.
    simpl. repeat split; repeat constructor.
  - destruct (data_type_is event "GET_VERSION"); simpl.
    + destruct (ports event); simpl; repeat split; repeat constructor.
    + repeat split; repeat constructor.
Qed.

Lemma other_messages_leave_storage_alone_witness :
  let out :=
    run Sample.offline (message_handler Sample.unknown_event)
      Sample.stocked in
  final out = Sample.stocked ∧
  Forall (fun o => touches_storage o = false) (log out) ∧
  (if data_type_is Sample.unknown_event "SKIP_WAITING"
      || data_type_is Sample.unknown_event "GET_VERSION"
   then True
   else result out = Fulfilled tt ∧ log out = []).
Proof.
  apply (other_messages_leave_storage_alone
           Sample.offline Sample.stocked Sample.unknown_event).
  reflexivity.
Defined.

(** After a CLEAR_CACHE command nothing is left to fall back on: while
    the network is down (and nothing has been stored again in the
    meantime), every request that the worker answers itself gets the
    synthetic 503 response of its branch, whatever was stored before the
    command. *)
Theorem offline_after_clear_cache
    (net net' : Network) (w : World) (event : MessageEvent)
    (request : Request) (e : Error) :
  data_type_is event "CLEAR_CACHE" = true →
  isHttp (url request) = true →
  isFirebase (url request) = false →
  respond net' (identity request) = Rejected e →
  storage_match (identity request) (meanwhile net' []) = None →
  ∃ out,
    on_fetch net' request (final (run net (message_handler event) w))
      = Some out ∧
    result out =
      Fulfilled (if isLibrary (url request)
                 then library_offline else app_offline).
Proof.
  intros H Hh Hf Hr Hm. rewrite run_clear_cache_message by exact H.
  unfold on_fetch, fetch_handler. rewrite Hh, Hf. simpl.
  destruct (isLibrary (url request)); simpl;
    (eexists; split; [reflexivity |]); rewrite Hr; simpl; rewrite Hm;
    reflexivity.
Qed.

Lemma offline_after_clear_cache_witness :
  ∃ out,
    on_fetch Sample.offline Sample.app_request
      (final (run Sample.offline (message_handler Sample.clear_cache_event)
                Sample.stocked)) = Some out ∧
    result out =
      Fulfilled (if isLibrary (url Sample.app_request)
                 then library_offline else app_offline).
Proof.
  apply (offline_after_clear_cache
           Sample.offline Sample.offline Sample.stocked
           Sample.clear_cache_event Sample.app_request NetworkError);
    reflexivity.
Defined.

(** ** Activation, further *)

Section ReaperFacts.

Variable net : Network.

Lemma storage_delete_filter (name : string) (s : CacheStorage) :
  storage_delete name s
  = List.filter (fun p => negb (String.eqb (fst p) name)) s.
Proof.
  induction s as [|[n c] s IH]; simpl; [reflexivity |].
  destruct (String.eqb n name); simpl; rewrite IH; reflexivity.
Qed.

Lemma filter_twice {A : Type} (f g : A → bool) (l : list A) :
  List.filter g (List.filter f l) = List.filter (fun x => f x && g x) l.
Proof.
  induction l as [|x l IH]; simpl; [reflexivity |].
  destruct (f x); simpl; [destruct (g x) |]; rewrite IH; reflexivity.
Qed.

Lemma delete_each_filter (names : list string) (s : CacheStorage) :
  delete_each names s
  = List.filter
      (fun p => forallb (fun n => negb (String.eqb (fst p) n)) names) s.
Proof.
  revert s. induction names as [|n names IH]; intros s; simpl.
  - induction s as [|p s IHs]; simpl; [reflexivity |].
    rewrite <- IHs. reflexivity.
  - rewrite IH, storage_delete_filter, filter_twice. reflexivity.
Qed.

(** Deleting every cache whose name is not [keep] leaves the caches called
    [keep], with their entries and in their order. *)
Lemma delete_others (keep : string) (s : CacheStorage) :
  delete_each
    (List.filter (fun name => negb (String.eqb name keep)) (storage_keys s)) s
  = only keep s.
Proof.
  rewrite delete_each_filter. unfold only. apply filter_ext_in.
  intros [n c] Hin. simpl.
  destruct (String.eqb_spec n keep) as [->|Hne].
  - apply forallb_forall. intros m Hm. apply filter_In in Hm as [_ Hm].
    rewrite String.eqb_sym. exact Hm.
  - apply not_true_is_false. intros Hall.
    rewrite forallb_forall in Hall.
    assert (Hn : In n (List.filter (fun name => negb (String.eqb name keep))
                         (storage_keys s))).
    { apply filter_In. split.
      - apply in_map_iff. exists (n, c). auto.
      - apply negb_true_iff, String.eqb_neq, Hne. }
    apply Hall in Hn. rewrite String.eqb_refl in Hn. discriminate Hn.
Qed.

Lemma only_keys (keep : string) (s : CacheStorage) :
  List.filter (fun name => negb (String.eqb name keep))
    (storage_keys (only keep s)) = [].
Proof.
  unfold only. induction s as [|[n c] s IH]; simpl; [reflexivity |].
  destruct (String.eqb n keep) eqn:E; simpl; [rewrite E; simpl |]; exact IH.
Qed.

Lemma only_only (keep : string) (s : CacheStorage) :
  only keep (only keep s) = only keep s.
Proof.
  unfold only. rewrite filter_twice. apply filter_ext.
  intros p. destruct (String.eqb (fst p) keep); reflexivity.
Qed.

Lemma get_cache_only_ne (n keep : string) (s : CacheStorage) :
  n ≠ keep → get_cache n (only keep s) = None.
Proof.
  intros Hne. unfold only.
  induction s as [|[m c] s IH]; simpl; [reflexivity |].
  destruct (String.eqb_spec m keep) as [->|Hm]; simpl; [| exact IH].
  destruct (String.eqb_spec keep n); [congruence | exact IH].
Qed.

Lemma sweep_fold_of (keep : string) (names : list string)
    (s : CacheStorage) :
  fold_left
    (fun acc name =>
       (if negb (String.eqb name keep)
        then storage_delete name else fun s' => s') acc)
    names s
  = delete_each
      (List.filter (fun name => negb (String.eqb name keep)) names) s.
Proof.
  revert s. induction names as [|n names IH]; intros s; simpl;
    [reflexivity |].
  rewrite IH. destruct (String.eqb n keep); reflexivity.
Qed.

Lemma sweep_log_of (keep : string) (names : list string) :
  concat
    (map (fun name =>
            if negb (String.eqb name keep) then [CachesDelete name] else [])
       names)
  = map CachesDelete
      (List.filter (fun name => negb (String.eqb name keep)) names).
Proof.
  induction names as [|n names IH]; simpl; [reflexivity |].
  rewrite IH. destruct (String.eqb n keep); reflexivity.
Qed.

Lemma run_legacy_activate_handler (w : World) :
  ∃ xs,
    run net Legacy.activate_handler w =
    {| result := Fulfilled xs;
       returned := with_storage (only Legacy.CACHE_NAME) w;
       final := with_storage (only Legacy.CACHE_NAME) w;
       log := CachesKeys
              :: map CachesDelete
                   (List.filter
                      (fun name =>
                         negb (String.eqb name Legacy.CACHE_NAME))
                      (storage_keys (storage w))) |}.
Proof.
  unfold Legacy.activate_handler.
  destruct (run_Promise_all_map net
              (fun cacheName =>
                 if negb (String.eqb cacheName Legacy.CACHE_NAME)
                 then then_ (caches_delete cacheName)
                        (fun deleted => Resolve (Some deleted))
                 else Resolve None)
              (fun name =>
                 if negb (String.eqb name Legacy.CACHE_NAME)
                 then storage_delete name else fun s' => s')
              (fun name =>
                 if negb (String.eqb name Legacy.CACHE_NAME)
                 then [CachesDelete name] else [])
              (storage_keys (storage w)) w) as [xs Hxs].
  - intros n. destruct (negb (String.eqb n Legacy.CACHE_NAME)); simpl; auto.
  - intros n w'. destruct (negb (String.eqb n Legacy.CACHE_NAME)); simpl.
    + eexists. reflexivity.
    + eexists. destruct w'. reflexivity.
  - exists xs. cbn -[Promise_all Legacy.CACHE_NAME] in Hxs |- *.
    rewrite Hxs.
    unfold with_storage. cbn -[Legacy.CACHE_NAME].
    rewrite sweep_fold_of, sweep_log_of, delete_others. reflexivity.
Qed.

End ReaperFacts.

(** Activation leaves in the storage exactly the caches that bear the
    current generation's name, with their entries and in their order, and
    ends by claiming the clients: the clients in scope that the worker
    did not control are among its clients afterwards.  Activating again
    changes nothing: the second run deletes no cache and finds no client
    left to claim. *)
Theorem activation_is_a_filter_and_idempotent (net : Network) (w : World) :
  let out := run net activate_handler w in
  storage (final out) = only CACHE_NAME (storage w) ∧
  clients (final out) = (clients w ++ uncontrolled w)%list ∧
  uncontrolled (final out) = [] ∧
  final (run net activate_handler (final out)) = final out ∧
  log (run net activate_handler (final out)) = [CachesKeys; ClientsClaim].
Proof.
  intros out. subst out. rewrite !run_activate_handler.
  unfold stale_names, with_storage, claim.
  cbn [final storage clients uncontrolled log].
  rewrite !delete_others, only_only, only_keys, app_nil_r.
  repeat split.
Qed.

(** ** The legacy worker *)

(** The legacy worker's activation leaves exactly the caches called
    [real-dor-v2], so it deletes the cache of version 2.1.0 too; unlike
    version 2.1.0 it does not claim the clients. *)
Theorem legacy_activation_keeps_its_cache_only (net : Network) (w : World) :
  let out := run net Legacy.activate_handler w in
  (∃ xs, result out = Fulfilled xs) ∧
  storage (final out) = only Legacy.CACHE_NAME (storage w) ∧
  get_cache CACHE_NAME (storage (final out)) = None ∧
  ¬ In ClientsClaim (log out).
Proof.
  intros out. subst out.
  destruct (run_legacy_activate_handler net w) as [xs Hxs]. rewrite Hxs.
  cbn [result final log storage with_storage].
  split; [eauto |]. split; [reflexivity |]. split.
  - apply get_cache_only_ne. discriminate.
  - intros [H|H]; [discriminate H |].
    apply in_map_iff in H as (n & Hn & _). discriminate Hn.
Qed.

(** The legacy worker answers every request network first, Firebase
    hosts and requests not over http included: a live response, whatever
    its status, is returned, and the worker opens the cache [real-dor-v2]
    and puts the response there under the request's identity.  The
    response is stored when the cache accepts the write (a GET request
    over http or https, a response that is not a 206 and whose [Vary]
    header does not list [*]); otherwise the rejection is dropped and
    nothing is stored. *)
Theorem legacy_returns_every_live_response
    (net : Network) (w : World) (request : Request) (response : Response) :
  respond net (identity request) = Fulfilled response →
  let out := run net (Legacy.fetch_handler request) w in
  result out = Fulfilled response ∧
  log out = [Fetch (identity request); CachesOpen Legacy.CACHE_NAME;
             CachePut Legacy.CACHE_NAME (identity request) response] ∧
  (if cacheable (identity request) response
   then cache_get Legacy.CACHE_NAME (identity request) (storage (final out))
          = Some response
   else storage (final out)
          = storage_open Legacy.CACHE_NAME (meanwhile net (storage w))).
Proof.
  intros Hr out. subst out. unfold Legacy.fetch_handler.
  cbn -[Legacy.CACHE_NAME]. rewrite Hr. cbn -[Legacy.CACHE_NAME].
  unfold clone.
  destruct (cacheable (identity request) response);
    cbn -[Legacy.CACHE_NAME]; repeat split.
  apply cache_get_put_open.
Qed.

Lemma legacy_returns_every_live_response_witness :
  let out :=
    run (Sample.online Sample.broken)
      (Legacy.fetch_handler Sample.app_request) Sample.no_caches in
  result out = Fulfilled Sample.broken ∧
  log out = [Fetch (identity Sample.app_request);
             CachesOpen Legacy.CACHE_NAME;
             CachePut Legacy.CACHE_NAME (identity Sample.app_request)
               Sample.broken] ∧
  (if cacheable (identity Sample.app_request) Sample.broken
   then cache_get Legacy.CACHE_NAME (identity Sample.app_request)
          (storage (final out)) = Some Sample.broken
   else storage (final out)
          = storage_open Legacy.CACHE_NAME
              (meanwhile (Sample.online Sample.broken)
                 (storage Sample.no_caches))).
Proof.
  apply (legacy_returns_every_live_response
           (Sample.online Sample.broken) Sample.no_caches
           Sample.app_request Sample.broken).
  reflexivity.
Defined.

(** When the live fetch fails, the legacy worker answers with the snapshot
    that the storage holds for the request, and otherwise with a 503
    text/plain response whose message is its own; it writes nothing and
    its promise never rejects. *)
Theorem legacy_falls_back_to_storage
    (net : Network) (w : World) (request : Request) (e : Error) :
  respond net (identity request) = Rejected e →
  let out := run net (Legacy.fetch_handler request) w in
  result out =
    Fulfilled
      match storage_match (identity request) (meanwhile net (storage w)) with
      | Some snapshot => snapshot
      | None =>
          new_Response "Offline - contenuto non disponibile"
            503 "Service Unavailable" [("Content-Type", "text/plain")]
      end ∧
  storage (final out) = meanwhile net (storage w) ∧
  log out = [Fetch (identity request); CachesMatch (identity request)].
Proof.
  intros Hr out. subst out. unfold Legacy.fetch_handler.
  cbn -[Legacy.CACHE_NAME]. rewrite Hr. cbn -[Legacy.CACHE_NAME].
  destruct (storage_match (identity request) (meanwhile net (storage w)));
    repeat split.
Qed.

Lemma legacy_falls_back_to_storage_witness :
  let out :=
    run Sample.offline (Legacy.fetch_handler Sample.app_request)
      Sample.legacy_only in
  result out =
    Fulfilled
      match storage_match (identity Sample.app_request)
              (meanwhile Sample.offline (storage Sample.legacy_only)) with
      | Some snapshot => snapshot
      | None =>
          new_Response "Offline - contenuto non disponibile"
            503 "Service Unavailable" [("Content-Type", "text/plain")]
      end ∧
  storage (final out) =
    meanwhile Sample.offline (storage Sample.legacy_only) ∧
  log out = [Fetch (identity Sample.app_request);
             CachesMatch (identity Sample.app_request)].
Proof.
  apply (legacy_falls_back_to_storage
           Sample.offline Sample.legacy_only Sample.app_request
           NetworkError).
  reflexivity.
Defined.

(** When every locator of the legacy manifest is answered with an [ok]
    response that the cache accepts, and no two locators of the manifest
    resolve to the same locator, the legacy install step fulfils and
    leaves each response in the cache [real-dor-v2] under the resolved
    locator; it never asks to skip the waiting phase. *)
Theorem legacy_install_populates_its_cache (net : Network) (w : World) :
  all_answered net Legacy.urlsToCache →
  duplicated (map (resolve net) Legacy.urlsToCache) = false →
  let out := run net Legacy.install_handler w in
  result out = Fulfilled tt ∧
  log out = [CachesOpen Legacy.CACHE_NAME;
             CacheAddAll Legacy.CACHE_NAME Legacy.urlsToCache] ∧
  (∀ u r, In u Legacy.urlsToCache →
     respond net ("GET", resolve net u) = Fulfilled r →
     cache_get Legacy.CACHE_NAME ("GET", resolve net u)
       (storage (final out)) = Some r).
Proof.
  intros H Hd out. subst out.
  destruct (fetch_all_answered net Legacy.urlsToCache H)
    as (l & Hl & Hloc & Hin & Hout).
  unfold Legacy.install_handler.
  cbn -[fetch_all Legacy.urlsToCache put_all Legacy.CACHE_NAME duplicated].
  rewrite Hl.
  cbn -[fetch_all Legacy.urlsToCache put_all Legacy.CACHE_NAME duplicated].
  rewrite Hloc, Hd.
  cbn -[fetch_all Legacy.urlsToCache put_all Legacy.CACHE_NAME duplicated].
  split; [reflexivity |]. split; [reflexivity |].
  intros u r Hu Hr. destruct (Hin u Hu) as (r' & Hr' & Hl').
  assert (r' = r) by congruence. subst r'.
  apply cache_get_put_all; [apply has_cache_open | | exact Hl'].
  intros r' H'. apply Hout in H'. congruence.
Qed.

Lemma legacy_install_populates_its_cache_witness :
  let out :=
    run (Sample.online Sample.fresh) Legacy.install_handler
      Sample.no_caches in
  result out = Fulfilled tt ∧
  log out = [CachesOpen Legacy.CACHE_NAME;
             CacheAddAll Legacy.CACHE_NAME Legacy.urlsToCache] ∧
  (∀ u r, In u Legacy.urlsToCache →
     respond (Sample.online Sample.fresh)
       ("GET", resolve (Sample.online Sample.fresh) u) = Fulfilled r →
     cache_get Legacy.CACHE_NAME
       ("GET", resolve (Sample.online Sample.fresh) u)
       (storage (final out)) = Some r).
Proof.
  apply (legacy_install_populates_its_cache
           (Sample.online Sample.fresh) Sample.no_caches).
  - intros u Hu. exists Sample.fresh. split; [reflexivity |].
    split; [reflexivity |].
    simpl in Hu. repeat (destruct Hu as [<-|Hu]; [reflexivity |]).
    destruct Hu.
  - reflexivity.
Defined.

(** When the fetch of one locator of its manifest fails, the legacy
    install step rejects, so that the platform discards the worker, and
    it has written no entry. *)
Theorem legacy_install_fails_with_its_batch
    (net : Network) (w : World) (u : string) (e : Error) :
  In u Legacy.urlsToCache →
  respond net ("GET", resolve net u) = Rejected e →
  let out := run net Legacy.install_handler w in
  result out = Rejected TypeError ∧
  install_verdict (result out) = Redundant ∧
  storage (final out) = storage_open Legacy.CACHE_NAME (storage w).
Proof.
  intros Hu Hr out. subst out.
  pose proof (fetch_all_fails net Legacy.urlsToCache u e Hu Hr) as Hb.
  unfold Legacy.install_handler.
  cbn -[fetch_all Legacy.urlsToCache Legacy.CACHE_NAME].
  rewrite Hb. repeat split.
Qed.

Lemma legacy_install_fails_with_its_batch_witness :
  let out :=
    run (Sample.online_but "/manifest.json" Sample.fresh)
      Legacy.install_handler Sample.no_caches in
  result out = Rejected TypeError ∧
  install_verdict (result out) = Redundant ∧
  storage (final out) =
    storage_open Legacy.CACHE_NAME (storage Sample.no_caches).
Proof.
  apply (legacy_install_fails_with_its_batch
           (Sample.online_but "/manifest.json" Sample.fresh)
           Sample.no_caches "/manifest.json" NetworkError).
  - right. right. left. reflexivity.
  - reflexivity.
Defined.

(** ** Entries of other requests *)

Section FrameFacts.

Lemma cache_get_open (name n : string) (i : Identity) (s : CacheStorage) :
  cache_get name i (storage_open n s) = cache_get name i s.
Proof.
  unfold cache_get, storage_open.
  destruct (has_cache n s) eqn:E; [reflexivity |].
  destruct (has_cache name s) eqn:E'.
  - rewrite get_cache_app_l by exact E'. reflexivity.
  - rewrite get_cache_app_r by exact E'.
    assert (get_cache name s = None) as ->.
    { destruct (get_cache name s) eqn:G; [| reflexivity].
      assert (has_cache name s = true) by (apply has_cache_get; eauto).
      congruence. }
    simpl. destruct (String.eqb n name); [apply lookup_empty | reflexivity].
Qed.

End FrameFacts.

(** Handling a request never disturbs what is stored for another request:
    for every identity other than the request's own, every cache holds
    after the handler's write what it held when the answer was returned. *)
Theorem request_path_keeps_other_entries
    (net : Network) (w : World) (request : Request) (out : Outcome Response) :
  on_fetch net request w = Some out →
  ∀ name i, i ≠ identity request →
    cache_get name i (storage (final out))
      = cache_get name i (storage (returned out)).
Proof.
  unfold on_fetch, fetch_handler.
  destruct (isHttp (url request)); simpl; [| discriminate].
  destruct (isFirebase (url request)); [| destruct (isLibrary (url request))];
    intros [= <-] name i Hne; simpl.
  - destruct (respond net (identity request)); reflexivity.
  - destruct (storage_match (identity request) (storage w)); simpl;
      [reflexivity |].
    destruct (respond net (identity request)) as [response|e]; simpl.
    + destruct (negb (status response =? 200)
                || is_error_type (type response)); simpl; [reflexivity |].
      destruct (cacheable (identity request) (clone response)); simpl;
        rewrite ?cache_get_put_other, cache_get_open by exact Hne;
        reflexivity.
    + destruct (storage_match (identity request)
                  (meanwhile net (storage w))); reflexivity.
  - destruct (respond net (identity request)) as [response|e]; simpl.
    + destruct (cacheable (identity request) (clone response)); simpl;
        rewrite ?cache_get_put_other, cache_get_open by exact Hne;
        reflexivity.
    + destruct (storage_match (identity request)
                  (meanwhile net (storage w))); reflexivity.
Qed.

Lemma request_path_keeps_other_entries_witness :
  ∃ out,
    on_fetch (Sample.online Sample.fresh) Sample.app_request Sample.stocked
      = Some out ∧
    ∀ name i, i ≠ identity Sample.app_request →
      cache_get name i (storage (final out))
        = cache_get name i (storage (returned out)).
Proof.
  eexists. split; [reflexivity |].
  apply (request_path_keeps_other_entries
           (Sample.online Sample.fresh) Sample.stocked Sample.app_request).
  reflexivity.
Defined.

(** ** The second search of the library branch *)

Lemma cache_first_recheck_hit_witness :
  ∃ out,
    on_fetch Sample.offline_while_stored Sample.library_request
      Sample.no_caches = Some out ∧
    result out = Fulfilled Sample.stale.
Proof.
  apply (cache_first_recheck_hit
           Sample.offline_while_stored Sample.library_request
           Sample.no_caches NetworkError Sample.stale);
    reflexivity.
Defined.
